(** * CollabCode Studio backend: authentication, sessions and chat feed

    A shallow embedding of [main.py] and [schemas.py].

    Conventions of the embedding.
    - A Python [str] is a [string]: a sequence of code points below 256, which
      is exactly the text an HTTP header carries once the framework has
      decoded it.  [len] is [String.length].
    - [bytes] are [list byte].
    - A [datetime] is an integer count of microseconds since the epoch, all in
      UTC; [timedelta(days=7)] is the corresponding number of microseconds.
    - The module-level handle [db] is an [option DB]: [None] when the store is
      not configured.  A collection is the list of its documents in insertion
      order and [find_one] returns the first document that matches.
    - What the operating system and the store pick for the program (random
      bytes, the session token, generated identifiers, clock readings) is an
      explicit argument of the function that consumes it.
    - A raised exception is the [Raise] branch of [result]. *)

From Stdlib Require Import String Ascii List NArith ZArith Lia Bool Arith.
From Stdlib Require Import Sorting.Mergesort Sorting.Sorted Sorting.Permutation Orders.
From Stdlib Require Import Init.Byte.
Import ListNotations.

(* ================================================================== *)
(** ** Python built-ins used by the program *)

Module Py.

Local Open Scope string_scope.

(** [c.lower()] for one code point below 256: the ASCII capitals and the
    Latin-1 capitals (0xC0..0xDE without the multiplication sign 0xD7) move
    up by 32; everything else is unchanged. *)
Definition lower_char (c : ascii) : ascii :=
  let n := N_of_ascii c in
  if ((65 <=? n) && (n <=? 90))%N then ascii_of_N (n + 32)
  else if ((192 <=? n) && (n <=? 222) && negb (n =? 215))%N then ascii_of_N (n + 32)
  else c.

(** [s.lower()] *)
Fixpoint lower (s : string) : string :=
  match s with
  | EmptyString => EmptyString
  | String c s' => String (lower_char c) (lower s')
  end.

(** [s.startswith(p)] *)
Definition startswith (s p : string) : bool := String.prefix p s.

(** [s.split(sep)] for a one-character separator: the pieces between the
    occurrences of [sep]; never the empty list. *)
Fixpoint split (sep : ascii) (s : string) : list string :=
  match s with
  | EmptyString => [EmptyString]
  | String c s' =>
      if Ascii.eqb c sep then EmptyString :: split sep s'
      else match split sep s' with
           | [] => [String c EmptyString]
           | p :: ps => String c p :: ps
           end
  end.

(** [s.split(sep, maxsplit)]: at most [maxsplit] cuts, from the left. *)
Fixpoint split_max (sep : ascii) (s : string) (maxsplit : nat) {struct s} : list string :=
  match maxsplit with
  | O => [s]
  | S k =>
      match s with
      | EmptyString => [EmptyString]
      | String c s' =>
          if Ascii.eqb c sep then EmptyString :: split_max sep s' k
          else match split_max sep s' (S k) with
               | [] => [String c EmptyString]
               | p :: ps => String c p :: ps
               end
      end
  end.

(** Truthiness of an optional string: [None] and the empty string are falsy. *)
Definition truthy (o : option string) : bool :=
  match o with
  | None => false
  | Some EmptyString => false
  | Some (String _ _) => true
  end.

(** [s.encode()]: UTF-8 of code points below 256. *)
Definition encode_char (c : ascii) : list byte :=
  let n := N_of_ascii c in
  if (n <? 128)%N then [byte_of_ascii c]
  else [byte_of_ascii (ascii_of_N (N.lor 192 (N.shiftr n 6)));
        byte_of_ascii (ascii_of_N (N.lor 128 (N.land n 63)))].

Fixpoint encode (s : string) : list byte :=
  match s with
  | EmptyString => []
  | String c s' => encode_char c ++ encode s'
  end.

(** The character [c] occurs in [s]. *)
Fixpoint contains (c : ascii) (s : string) : bool :=
  match s with
  | EmptyString => false
  | String a s' => Ascii.eqb a c || contains c s'
  end.

(** Number of occurrences of [c] in [s]. *)
Fixpoint count (c : ascii) (s : string) : nat :=
  match s with
  | EmptyString => O
  | String a s' => (if Ascii.eqb a c then 1 else 0) + count c s'
  end.

(** [s[n:]] *)
Fixpoint drop (n : nat) (s : string) : string :=
  match n, s with
  | O, _ => s
  | S k, EmptyString => EmptyString
  | S k, String _ s' => drop k s'
  end.

End Py.

(* ================================================================== *)
(** ** Hexadecimal text ([bytes.hex], [bytes.fromhex]) *)

Module Hex.

Local Open Scope N_scope.

(** The lower-case digit of a value below 16. *)
Definition digit (n : N) : ascii :=
  if n <? 10 then ascii_of_N (48 + n) else ascii_of_N (87 + n).

(** Value of a hexadecimal digit, either case. *)
Definition digit_value (c : ascii) : option N :=
  let n := N_of_ascii c in
  if (48 <=? n) && (n <=? 57) then Some (n - 48)
  else if (97 <=? n) && (n <=? 102) then Some (n - 87)
  else if (65 <=? n) && (n <=? 70) then Some (n - 55)
  else None.

Definition is_digit (c : ascii) : bool :=
  match digit_value c with Some _ => true | None => false end.

Fixpoint all_digits (s : string) : bool :=
  match s with
  | EmptyString => true
  | String c s' => is_digit c && all_digits s'
  end.

(** [bs.hex()]: two lower-case digits per byte. *)
Fixpoint hexlify (bs : list byte) : string :=
  match bs with
  | [] => EmptyString
  | b :: bs' =>
      let n := Byte.to_N b in
      String (digit (n / 16)) (String (digit (n mod 16)) (hexlify bs'))
  end.

(** [bytes.fromhex(s)] on text without blanks; [None] when [s] is not an
    even number of hexadecimal digits. *)
Fixpoint unhexlify (s : string) : option (list byte) :=
  match s with
  | EmptyString => Some []
  | String _ EmptyString => None
  | String h (String l s') =>
      match digit_value h, digit_value l, unhexlify s' with
      | Some x, Some y, Some bs =>
          match Byte.of_N (16 * x + y) with
          | Some b => Some (b :: bs)
          | None => None
          end
      | _, _, _ => None
      end
  end.

End Hex.

(* ================================================================== *)
(** ** [hashlib.sha256] (FIPS 180-4) on 32-bit words with wrap-around *)

Module SHA256.

Local Open Scope N_scope.

Definition mask32 : N := 0xFFFFFFFF.
Definition add32 (x y : N) : N := N.land (x + y) mask32.
Definition rotr (n x : N) : N :=
  N.lor (N.shiftr x n) (N.land (N.shiftl x (32 - n)) mask32).
Definition not32 (x : N) : N := N.lxor x mask32.

Definition Ch (x y z : N) : N := N.lxor (N.land x y) (N.land (not32 x) z).
Definition Maj (x y z : N) : N :=
  N.lxor (N.lxor (N.land x y) (N.land x z)) (N.land y z).
Definition Sum0 (x : N) : N := N.lxor (N.lxor (rotr 2 x) (rotr 13 x)) (rotr 22 x).
Definition Sum1 (x : N) : N := N.lxor (N.lxor (rotr 6 x) (rotr 11 x)) (rotr 25 x).
Definition sig0 (x : N) : N := N.lxor (N.lxor (rotr 7 x) (rotr 18 x)) (N.shiftr x 3).
Definition sig1 (x : N) : N := N.lxor (N.lxor (rotr 17 x) (rotr 19 x)) (N.shiftr x 10).

(** Integer cube root by bisection: the largest [r] below [2^bits] with
    [r^3 <= n]. *)
Fixpoint icbrt (bits : nat) (n acc : N) : N :=
  match bits with
  | O => acc
  | S b =>
      let cand := acc + N.shiftl 1 (N.of_nat b) in
      icbrt b n (if cand * cand * cand <=? n then cand else acc)
  end.

Definition primes64 : list N :=
  [2; 3; 5; 7; 11; 13; 17; 19; 23; 29; 31; 37; 41; 43; 47; 53;
   59; 61; 67; 71; 73; 79; 83; 89; 97; 101; 103; 107; 109; 113; 127; 131;
   137; 139; 149; 151; 157; 163; 167; 173; 179; 181; 191; 193; 197; 199; 211; 223;
   227; 229; 233; 239; 241; 251; 257; 263; 269; 271; 277; 281; 283; 293; 307; 311].

(** Round constants: the first 32 bits of the fractional part of the cube
    root of each of the first 64 primes. *)
Definition K : list N :=
  Eval vm_compute in
    map (fun p => N.land (icbrt 36 (N.shiftl p 96) 0) mask32) primes64.

(** Integer square root by bisection. *)
Fixpoint isqrt (bits : nat) (n acc : N) : N :=
  match bits with
  | O => acc
  | S b =>
      let cand := acc + N.shiftl 1 (N.of_nat b) in
      isqrt b n (if cand * cand <=? n then cand else acc)
  end.

Record state : Type := State
  { ha : N; hb : N; hc : N; hd : N; he : N; hf : N; hg : N; hh : N }.

(** Initial hash value: the first 32 bits of the fractional part of the
    square root of each of the first 8 primes. *)
Definition H0 : state :=
  Eval vm_compute in
    let h := fun p => N.land (isqrt 36 (N.shiftl p 64) 0) mask32 in
    State (h 2) (h 3) (h 5) (h 7) (h 11) (h 13) (h 17) (h 19).

(** Big-endian bytes of a number. *)
Fixpoint be_bytes (width : nat) (x : N) : list N :=
  match width with
  | O => []
  | S w => N.land (N.shiftr x (8 * N.of_nat w)) 255 :: be_bytes w x
  end.

Definition be_word (bs : list N) : N :=
  fold_left (fun acc b => N.lor (N.shiftl acc 8) b) bs 0.

(** Padding: the bit 1, then zeros, then the bit length on 8 bytes, up to a
    multiple of 64 bytes. *)
Definition pad (msg : list byte) : list N :=
  let l := length msg in
  let zeros := ((119 - l mod 64) mod 64)%nat in
  map Byte.to_N msg ++ [128] ++ repeat 0 zeros ++ be_bytes 8 (8 * N.of_nat l).

Fixpoint chunks (fuel size : nat) (l : list N) : list (list N) :=
  match fuel with
  | O => []
  | S f =>
      match l with
      | [] => []
      | _ => firstn size l :: chunks f size (skipn size l)
      end
  end.

Definition words (block : list N) : list N :=
  map be_word (chunks 16 4 block).

(** Message schedule, latest word first: [w] holds W[t-1], W[t-2], ... *)
Fixpoint extend (n : nat) (w : list N) : list N :=
  match n with
  | O => w
  | S k =>
      let x := add32 (add32 (sig1 (nth 1 w 0)) (nth 6 w 0))
                     (add32 (sig0 (nth 14 w 0)) (nth 15 w 0)) in
      extend k (x :: w)
  end.

Definition schedule (block : list N) : list N :=
  rev (extend 48 (rev (words block))).

Definition round (s : state) (kw : N * N) : state :=
  let (k, w) := kw in
  let t1 := add32 (add32 (add32 (add32 (hh s) (Sum1 (he s))) (Ch (he s) (hf s) (hg s))) k) w in
  let t2 := add32 (Sum0 (ha s)) (Maj (ha s) (hb s) (hc s)) in
  State (add32 t1 t2) (ha s) (hb s) (hc s) (add32 (hd s) t1) (he s) (hf s) (hg s).

Definition compress (s : state) (block : list N) : state :=
  let r := fold_left round (combine K (schedule block)) s in
  State (add32 (ha s) (ha r)) (add32 (hb s) (hb r)) (add32 (hc s) (hc r))
        (add32 (hd s) (hd r)) (add32 (he s) (he r)) (add32 (hf s) (hf r))
        (add32 (hg s) (hg r)) (add32 (hh s) (hh r)).

Definition to_byte (n : N) : byte :=
  match Byte.of_N (N.land n 255) with Some b => b | None => x00 end.

Definition digest_bytes (s : state) : list byte :=
  map to_byte
    (be_bytes 4 (ha s) ++ be_bytes 4 (hb s) ++ be_bytes 4 (hc s) ++ be_bytes 4 (hd s) ++
     be_bytes 4 (he s) ++ be_bytes 4 (hf s) ++ be_bytes 4 (hg s) ++ be_bytes 4 (hh s)).

(** [hashlib.sha256(msg).digest()] *)
Definition digest (msg : list byte) : list byte :=
  let p := pad msg in
  digest_bytes (fold_left compress (chunks (length p) 64 p) H0).

(** [hashlib.sha256(msg).hexdigest()] *)
Definition hexdigest (msg : list byte) : string := Hex.hexlify (digest msg).

End SHA256.

(* ================================================================== *)
(** ** Exceptions, results, time *)

(** The exceptions the program raises or lets escape. *)
Inductive exn : Type :=
| HTTPException (status_code : nat) (detail : string)
| ValidationError
| ValueError
| IndexError
| InvalidId
| AttributeError.

Inductive result (A : Type) : Type :=
| Return (a : A)
| Raise (e : exn).

Arguments Return {A} a.
Arguments Raise {A} e.

Definition datetime : Type := Z.

(** [timedelta(days=n)] in microseconds. *)
Definition timedelta_days (n : Z) : Z := (n * 86400000000)%Z.

(* ================================================================== *)
(** ** [bson.ObjectId]: twelve bytes, written as 24 hexadecimal digits *)

Module ObjectId.

Definition t : Type := list byte.

Fixpoint eqb (a b : t) : bool :=
  match a, b with
  | [], [] => true
  | x :: a', y :: b' => Byte.eqb x y && eqb a' b'
  | _, _ => false
  end.

(** [str(oid)] *)
Definition str (o : t) : string := Hex.hexlify o.

(** [ObjectId.is_valid(s)] for a string [s]. *)
Definition is_valid (s : string) : bool :=
  Nat.eqb (String.length s) 24 && Hex.all_digits s.

(** [ObjectId(s)]; [None] stands for the exception [InvalidId]. *)
Definition parse (s : string) : option t :=
  if is_valid s then Hex.unhexlify s else None.

(** An identifier as the store generates it. *)
Definition well_formed (o : t) : Prop := length o = 12%nat.

End ObjectId.

(* ================================================================== *)
(** ** schemas.py *)

Module AuthUser.
Record t : Type := make
  { name : string;
    email : string;
    password_hash : string;
    created_at : option datetime;
    updated_at : option datetime }.
End AuthUser.

Module Session.
Record t : Type := make
  { user_id : string;
    token : string;
    expires_at : datetime;
    created_at : option datetime;
    updated_at : option datetime }.
End Session.

Module ChatMessage.
Record t : Type := make
  { user_id : string;
    content : string;
    created_at : option datetime;
    updated_at : option datetime }.

(** [ChatMessage(user_id=..., content=...)]: the constructor checks
    [Field(..., min_length=1, max_length=2000)] on [content]. *)
Definition new (user_id content : string) : result t :=
  if (1 <=? String.length content)%nat && (String.length content <=? 2000)%nat
  then Return (make user_id content None None)
  else Raise ValidationError.
End ChatMessage.

(* ================================================================== *)
(** ** The document store *)

(** Documents of the collection "authuser". *)
Module authuser.
Record doc : Type := make
  { _id : ObjectId.t;
    name : string;
    email : string;
    password_hash : string;
    created_at : datetime;
    updated_at : datetime }.
End authuser.

(** Documents of the collection "session". *)
Module session.
Record doc : Type := make
  { _id : ObjectId.t;
    user_id : string;
    token : string;
    expires_at : datetime;
    created_at : datetime;
    updated_at : datetime }.
End session.

(** Documents of the collection "chatmessage". *)
Module chatmessage.
Record doc : Type := make
  { _id : ObjectId.t;
    user_id : string;
    content : string;
    created_at : datetime;
    updated_at : datetime }.
End chatmessage.

Record DB : Type := mkDB
  { db_authuser : list authuser.doc;
    db_session : list session.doc;
    db_chatmessage : list chatmessage.doc }.

(** [.sort("created_at", -1)]: newest first.  Documents with equal stamps
    keep their insertion order. *)
Module CreatedDesc <: Orders.TotalLeBool.
Definition t : Type := chatmessage.doc.
Definition leb (x y : t) : bool :=
  (chatmessage.created_at y <=? chatmessage.created_at x)%Z.
Lemma leb_total : forall x y : t, leb x y = true \/ leb y x = true.
Proof.
  intros x y. unfold leb.
  destruct (Z.leb_spec (chatmessage.created_at y) (chatmessage.created_at x)) as [H | H].
  - left. reflexivity.
  - right. apply Z.leb_le. apply Z.lt_le_incl. exact H.
Qed.
End CreatedDesc.

Module SortCreatedDesc := Sort CreatedDesc.

Module database.

(** What an insertion takes from outside the program: the identifier the
    store generates and the clock reading used for the stamps. *)
Record inserted : Type := mk_inserted
  { new_id : ObjectId.t;
    stamp : datetime }.

(** Modelled from the spec: [create_document] of [database.py], the
    generic "create document" helper that stamps created_at/updated_at and
    returns the new identifier; here for an [AuthUser] sent to
    "authuser". *)
Definition create_document_authuser (d : DB) (i : inserted) (data : AuthUser.t)
  : DB * string :=
  let doc := authuser.make (new_id i) (AuthUser.name data) (AuthUser.email data)
                           (AuthUser.password_hash data) (stamp i) (stamp i) in
  (mkDB (db_authuser d ++ [doc]) (db_session d) (db_chatmessage d),
   ObjectId.str (new_id i)).

(** Modelled from the spec: [create_document] of [database.py] for a
    [Session] sent to "session". *)
Definition create_document_session (d : DB) (i : inserted) (data : Session.t)
  : DB * string :=
  let doc := session.make (new_id i) (Session.user_id data) (Session.token data)
                          (Session.expires_at data) (stamp i) (stamp i) in
  (mkDB (db_authuser d) (db_session d ++ [doc]) (db_chatmessage d),
   ObjectId.str (new_id i)).

(** Modelled from the spec: [create_document] of [database.py] for a
    [ChatMessage] sent to "chatmessage". *)
Definition create_document_chatmessage (d : DB) (i : inserted) (data : ChatMessage.t)
  : DB * string :=
  let doc := chatmessage.make (new_id i) (ChatMessage.user_id data)
                              (ChatMessage.content data) (stamp i) (stamp i) in
  (mkDB (db_authuser d) (db_session d) (db_chatmessage d ++ [doc]),
   ObjectId.str (new_id i)).

End database.

(* ================================================================== *)
(** ** main.py *)

Local Open Scope string_scope.

(** *** Utility functions *)

(** [hash_password]; [token_bytes] is what [secrets.token_hex(16)] draws
    before it writes it in hexadecimal. *)
Definition hash_password (token_bytes : list byte) (password : string) : string :=
  let salt := Hex.hexlify token_bytes in
  let hashed := SHA256.hexdigest (Py.encode (salt ++ password)) in
  salt ++ "$" ++ hashed.

(** The body of the [try] of [verify_password]: unpacking the pieces of the
    split into two names raises [ValueError] unless there are exactly two. *)
Definition verify_password_try (password stored_hash : string) : result bool :=
  match Py.split "$" stored_hash with
  | [salt; hashed] =>
      Return (String.eqb (SHA256.hexdigest (Py.encode (salt ++ password))) hashed)
  | _ => Raise ValueError
  end.

(** [verify_password]: [except Exception: return False]. *)
Definition verify_password (password stored_hash : string) : bool :=
  match verify_password_try password stored_hash with
  | Return b => b
  | Raise _ => false
  end.

(** What [create_session] takes from outside: the token drawn by
    [secrets.token_urlsafe(32)], its clock reading, and the insertion. *)
Record session_env : Type := mk_session_env
  { token_urlsafe : string;
    now : datetime;
    session_inserted : database.inserted }.

Definition create_session (d : DB) (e : session_env) (user_id : string) : DB * string :=
  let token := token_urlsafe e in
  let expires := (now e + timedelta_days 7)%Z in
  let session := Session.make user_id token expires None None in
  let (d', _) := database.create_document_session d (session_inserted e) session in
  (d', token).

(** [db["authuser"].find_one({"_id": ObjectId(x)}) if ObjectId.is_valid(x) else None] *)
Definition find_user (d : DB) (x : string) : option authuser.doc :=
  if ObjectId.is_valid x then
    match ObjectId.parse x with
    | Some oid => find (fun u => ObjectId.eqb (authuser._id u) oid) (db_authuser d)
    | None => None
    end
  else None.

(** [db["session"].find_one({"token": token, "expires_at": {"$gt": now}})] *)
Definition find_session (d : DB) (now : datetime) (token : string) : option session.doc :=
  find (fun s => String.eqb (session.token s) token && (now <? session.expires_at s)%Z)
       (db_session d).

Definition get_user_by_token (db : option DB) (now : datetime) (token : string)
  : option authuser.doc :=
  match db with
  | None => None
  | Some d =>
      match find_session d now token with
      | None => None
      | Some sess => find_user d (session.user_id sess)
      end
  end.

(** *** Request and response models *)

Module RegisterRequest.
Record t : Type := make { name : string; email : string; password : string }.
End RegisterRequest.

Module LoginRequest.
Record t : Type := make { email : string; password : string }.
End LoginRequest.

Module LoginResponse.
Record t : Type := make { token : string; name : string; email : string }.
End LoginResponse.

Module ChatPostRequest.
Record t : Type := make { content : string }.
End ChatPostRequest.

Module ChatMessageResponse.
Record t : Type := make
  { id : string; user_name : string; content : string; created_at : datetime }.
End ChatMessageResponse.

(** *** Auth endpoints *)

(** [db["authuser"].find_one({"email": email})] *)
Definition find_user_by_email (d : DB) (email : string) : option authuser.doc :=
  find (fun u => String.eqb (authuser.email u) email) (db_authuser d).

Record register_env : Type := mk_register_env
  { salt_bytes : list byte;
    user_inserted : database.inserted;
    session_env_of : session_env }.

(** [register]: the new state of [db] and the outcome. *)
Definition register (db : option DB) (e : register_env) (payload : RegisterRequest.t)
  : option DB * result LoginResponse.t :=
  match db with
  | None => (db, Raise (HTTPException 500 "Database not configured"))
  | Some d =>
      match find_user_by_email d (RegisterRequest.email payload) with
      | Some _ => (db, Raise (HTTPException 400 "Email already registered"))
      | None =>
          let user := AuthUser.make (RegisterRequest.name payload)
                                    (RegisterRequest.email payload)
                                    (hash_password (salt_bytes e)
                                                   (RegisterRequest.password payload))
                                    None None in
          let (d1, user_id) := database.create_document_authuser d (user_inserted e) user in
          let (d2, token) := create_session d1 (session_env_of e) user_id in
          (Some d2,
           Return (LoginResponse.make token (AuthUser.name user) (AuthUser.email user)))
      end
  end.

Definition login (db : option DB) (e : session_env) (payload : LoginRequest.t)
  : option DB * result LoginResponse.t :=
  match db with
  | None => (db, Raise (HTTPException 500 "Database not configured"))
  | Some d =>
      match find_user_by_email d (LoginRequest.email payload) with
      | None => (db, Raise (HTTPException 401 "Invalid credentials"))
      | Some user =>
          if negb (verify_password (LoginRequest.password payload)
                                   (authuser.password_hash user))
          then (db, Raise (HTTPException 401 "Invalid credentials"))
          else
            let (d', token) := create_session d e (ObjectId.str (authuser._id user)) in
            (Some d',
             Return (LoginResponse.make token (authuser.name user) (authuser.email user)))
      end
  end.

(** *** Dependency to get the current user *)

Definition get_current_user (db : option DB) (now : datetime)
                            (authorization : option string) : result authuser.doc :=
  if negb (Py.truthy authorization) then
    Raise (HTTPException 401 "Missing Authorization header")
  else
    let a := match authorization with Some a => a | None => "" end in
    if negb (Py.startswith (Py.lower a) "bearer ") then
      Raise (HTTPException 401 "Invalid Authorization header")
    else
      match nth_error (Py.split_max " " a 1) 1 with
      | None => Raise IndexError
      | Some token =>
          match get_user_by_token db now token with
          | None => Raise (HTTPException 401 "Invalid or expired token")
          | Some user => Return user
          end
      end.

(** *** Chat endpoints *)

(** One step of the loop of [list_messages]. *)
Definition message_view (d : DB) (m : chatmessage.doc) : ChatMessageResponse.t :=
  let u := find_user d (chatmessage.user_id m) in
  ChatMessageResponse.make
    (ObjectId.str (chatmessage._id m))
    (match u with Some u => authuser.name u | None => "Unknown" end)
    (chatmessage.content m)
    (chatmessage.created_at m).

(** [db["chatmessage"].find().sort("created_at", -1).limit(50)] *)
Definition recent_messages (d : DB) : list chatmessage.doc :=
  firstn 50 (SortCreatedDesc.sort (db_chatmessage d)).

(** [list_messages], once the dependency [get_current_user] has produced
    [user]. *)
Definition list_messages (db : option DB) (user : authuser.doc)
  : result (list ChatMessageResponse.t) :=
  match db with
  | None => Raise (HTTPException 500 "Database not configured")
  | Some d => Return (rev (map (message_view d) (recent_messages d)))
  end.

(** [post_message], once the dependency has produced [user]: the new state
    of [db] and the outcome. *)
Definition post_message (db : option DB) (i : database.inserted)
                        (payload : ChatPostRequest.t) (user : authuser.doc)
  : option DB * result ChatMessageResponse.t :=
  match db with
  | None => (db, Raise (HTTPException 500 "Database not configured"))
  | Some d =>
      match ChatMessage.new (ObjectId.str (authuser._id user))
                            (ChatPostRequest.content payload) with
      | Raise e => (db, Raise e)
      | Return msg =>
          let (d', msg_id) := database.create_document_chatmessage d i msg in
          match ObjectId.parse msg_id with
          | None => (Some d', Raise InvalidId)
          | Some oid =>
              match find (fun m => ObjectId.eqb (chatmessage._id m) oid)
                         (db_chatmessage d') with
              | None => (Some d', Raise AttributeError)
              | Some saved =>
                  (Some d',
                   Return (ChatMessageResponse.make msg_id (authuser.name user)
                             (chatmessage.content saved) (chatmessage.created_at saved)))
              end
          end
      end
  end.

(** [GET /chat]: the dependency, then the endpoint. *)
Definition get_chat (db : option DB) (now : datetime) (authorization : option string)
  : result (list ChatMessageResponse.t) :=
  match get_current_user db now authorization with
  | Raise e => Raise e
  | Return user => list_messages db user
  end.

(** [POST /chat]: the dependency, then the endpoint. *)
Definition post_chat (db : option DB) (now : datetime) (authorization : option string)
                     (i : database.inserted) (payload : ChatPostRequest.t)
  : option DB * result ChatMessageResponse.t :=
  match get_current_user db now authorization with
  | Raise e => (db, Raise e)
  | Return user => post_message db i payload user
  end.

(* ================================================================== *)
(** ** Conditions on the store used in the statements *)

(** No stored session carries the token [tok]. *)
Definition fresh_token (d : DB) (tok : string) : bool :=
  forallb (fun s => negb (String.eqb (session.token s) tok)) (db_session d).

(** No stored chat message carries the identifier [o]. *)
Definition fresh_message_id (d : DB) (o : ObjectId.t) : bool :=
  forallb (fun m => negb (ObjectId.eqb (chatmessage._id m) o)) (db_chatmessage d).

(** Every stored chat message was stamped strictly before [t]. *)
Definition all_before (d : DB) (t : datetime) : bool :=
  forallb (fun m => (chatmessage.created_at m <? t)%Z) (db_chatmessage d).

(** The post succeeds with a view of the posted content, and the listing
    that follows does not end with that view. *)
Definition posted_is_not_last (d : DB) (i : database.inserted)
                              (payload : ChatPostRequest.t) (user : authuser.doc) : Prop :=
  exists d' posted views,
    post_message (Some d) i payload user = (Some d', Return posted) /\
    ChatMessageResponse.content posted = ChatPostRequest.content payload /\
    list_messages (Some d') user = Return views /\
    last views posted <> posted /\
    ~ exists earlier, views = (earlier ++ [posted])%list.

(** Some stored user has the address [email]. *)
Definition email_taken (d : DB) (email : string) : Prop :=
  exists u, In u (db_authuser d) /\ authuser.email u = email.

(** Newest first, as a proposition. *)
Definition newer_or_equal (x y : chatmessage.doc) : Prop :=
  (chatmessage.created_at y <= chatmessage.created_at x)%Z.

(** ** A small store for the examples *)

Module Sample.

Definition oid (b : byte) : ObjectId.t := repeat b 12.

Definition alice_env : register_env :=
  mk_register_env (repeat x01 16) (database.mk_inserted (oid x0a) 1000%Z)
    (mk_session_env "tokA" 1001%Z (database.mk_inserted (oid x0b) 1002%Z)).

Definition alice_request : RegisterRequest.t :=
  RegisterRequest.make "Alice" "a@x.com" "pw1".

Definition empty : DB := mkDB [] [] [].

(** The store after Alice has registered. *)
Definition with_alice : DB :=
  Eval vm_compute in
    match fst (register (Some empty) alice_env alice_request) with
    | Some d => d
    | None => empty
    end.

Definition alice : authuser.doc :=
  Eval vm_compute in
    match db_authuser with_alice with
    | u :: _ => u
    | [] => authuser.make [] "" "" "" 0%Z 0%Z
    end.

Definition login_env : session_env :=
  mk_session_env "tokB" 2000%Z (database.mk_inserted (oid x0c) 2001%Z).

Definition hi_inserted : database.inserted := database.mk_inserted (oid x0d) 3001%Z.

(** The store after Alice has posted "hi". *)
Definition with_hi : DB :=
  Eval vm_compute in
    match fst (post_chat (Some with_alice) 3000%Z (Some "Bearer tokA") hi_inserted
                         (ChatPostRequest.make "hi")) with
    | Some d => d
    | None => with_alice
    end.

(** Alice's store with 51 messages, stamped 1, 2, ..., 51, the odd ones
    by an author who has no user record. *)
Definition crowded : DB :=
  mkDB (db_authuser with_alice) (db_session with_alice)
       (map (fun n =>
               chatmessage.make (oid x0e)
                 (if Nat.even n then ObjectId.str (authuser._id alice)
                  else ObjectId.str (oid xff))
                 "m" (Z.of_nat n) (Z.of_nat n))
            (seq 1 51)).

End Sample.

(* ================================================================== *)
(** ** The routes that use the store *)

(** A request to one of the four routes of [app] that read or write the
    collections, with what the handler takes from outside. *)
Inductive request : Type :=
| PostAuthRegister (e : register_env) (payload : RegisterRequest.t)
| PostAuthLogin (e : session_env) (payload : LoginRequest.t)
| GetChat (now : datetime) (authorization : option string)
| PostChat (now : datetime) (authorization : option string)
           (i : database.inserted) (payload : ChatPostRequest.t).

Inductive response : Type :=
| LoginBody (r : LoginResponse.t)
| ChatListBody (l : list ChatMessageResponse.t)
| ChatBody (m : ChatMessageResponse.t).

Definition map_result {A B : Type} (f : A -> B) (r : result A) : result B :=
  match r with
  | Return a => Return (f a)
  | Raise e => Raise e
  end.

(** The route table: the handler of each request, run on the current store. *)
Definition serve (db : option DB) (r : request) : option DB * result response :=
  match r with
  | PostAuthRegister e payload =>
      let (db', out) := register db e payload in (db', map_result LoginBody out)
  | PostAuthLogin e payload =>
      let (db', out) := login db e payload in (db', map_result LoginBody out)
  | GetChat now authorization =>
      (db, map_result ChatListBody (get_chat db now authorization))
  | PostChat now authorization i payload =>
      let (db', out) := post_chat db now authorization i payload in
      (db', map_result ChatBody out)
  end.

(** The store a configured application holds after one request. *)
Definition store_after (d : DB) (r : request) : DB :=
  match fst (serve (Some d) r) with
  | Some d' => d'
  | None => d
  end.

(** The document [register] inserts into "authuser". *)
Definition registered_user (e : register_env) (payload : RegisterRequest.t) : authuser.doc :=
  authuser.make (database.new_id (user_inserted e))
    (RegisterRequest.name payload) (RegisterRequest.email payload)
    (hash_password (salt_bytes e) (RegisterRequest.password payload))
    (database.stamp (user_inserted e)) (database.stamp (user_inserted e)).

(** The document [create_session] inserts into "session". *)
Definition session_doc (e : session_env) (user_id : string) : session.doc :=
  session.make (database.new_id (session_inserted e)) user_id (token_urlsafe e)
    (now e + timedelta_days 7)%Z
    (database.stamp (session_inserted e)) (database.stamp (session_inserted e)).

(** The document [post_message] inserts into "chatmessage". *)
Definition message_doc (i : database.inserted) (user : authuser.doc)
                       (payload : ChatPostRequest.t) : chatmessage.doc :=
  chatmessage.make (database.new_id i) (ObjectId.str (authuser._id user))
    (ChatPostRequest.content payload) (database.stamp i) (database.stamp i).

(** The length check of [ChatMessage] on the content of a post. *)
Definition content_length_ok (payload : ChatPostRequest.t) : bool :=
  (1 <=? String.length (ChatPostRequest.content payload))%nat &&
  (String.length (ChatPostRequest.content payload) <=? 2000)%nat.

(** The identifier the store generates for a new user is twelve bytes long
    and is the identifier of no stored user. *)
Definition generated_id_ok (d : DB) (r : request) : bool :=
  match r with
  | PostAuthRegister e _ =>
      Nat.eqb (length (database.new_id (user_inserted e))) 12 &&
      forallb (fun u => negb (ObjectId.eqb (authuser._id u)
                                           (database.new_id (user_inserted e))))
              (db_authuser d)
  | _ => true
  end.

(** The stores the application builds, request after request, from the
    empty store. *)
Inductive reachable : DB -> Prop :=
| reachable_empty : reachable (mkDB [] [] [])
| reachable_step (d : DB) (r : request) :
    reachable d -> generated_id_ok d r = true -> reachable (store_after d r).

(** Every stored user is the one found under its own identifier. *)
Definition users_indexed (d : DB) : Prop :=
  forall u, In u (db_authuser d) -> find_user d (ObjectId.str (authuser._id u)) = Some u.

(** Every stored user is the one found under its own email. *)
Definition emails_indexed (d : DB) : Prop :=
  forall u, In u (db_authuser d) -> find_user_by_email d (authuser.email u) = Some u.

(** Every stored session refers to a stored user. *)
Definition sessions_owned (d : DB) : Prop :=
  forall s, In s (db_session d) -> exists u, find_user d (session.user_id s) = Some u.

(** Every stored chat message refers to a stored user. *)
Definition messages_owned (d : DB) : Prop :=
  forall m, In m (db_chatmessage d) ->
            exists u, find_user d (chatmessage.user_id m) = Some u.

(** The four together. *)
Definition store_invariant (d : DB) : Prop :=
  users_indexed d /\ emails_indexed d /\ sessions_owned d /\ messages_owned d.

(** No two stored users share an email or an identifier, and every user
    identifier is twelve bytes long. *)
Definition users_distinct (d : DB) : Prop :=
  NoDup (map authuser.email (db_authuser d)) /\
  NoDup (map authuser._id (db_authuser d)) /\
  Forall (fun u => ObjectId.well_formed (authuser._id u)) (db_authuser d).

(** The latest expiry among the stored sessions (0 when there is none). *)
Definition latest_expiry (d : DB) : datetime :=
  fold_right (fun s acc => Z.max (session.expires_at s) acc) 0%Z (db_session d).

(* ================================================================== *)
(** * Properties *)

(** ** Strings *)

Lemma append_cons (c : ascii) (s : string) : String c "" ++ s = String c s.
Proof. reflexivity. Qed.

Lemma split_nonempty (sep : ascii) (s : string) : Py.split sep s <> [].
Proof.
  destruct s as [| c s]; simpl.
  - discriminate.
  - destruct (Ascii.eqb c sep); [discriminate |].
    destruct (Py.split sep s); discriminate.
Qed.

Lemma split_no_sep (sep : ascii) (s : string) :
  Py.contains sep s = false -> Py.split sep s = [s].
Proof.
  induction s as [| c s IH]; simpl; intros H.
  - reflexivity.
  - apply orb_false_iff in H. destruct H as [Hc Hs].
    rewrite Hc. rewrite (IH Hs). reflexivity.
Qed.

Lemma split_app (sep : ascii) (a b : string) :
  Py.contains sep a = false ->
  Py.split sep (a ++ String sep b) = a :: Py.split sep b.
Proof.
  induction a as [| c a IH]; simpl; intros H.
  - rewrite Ascii.eqb_refl. reflexivity.
  - apply orb_false_iff in H. destruct H as [Hc Ha].
    rewrite Hc. rewrite (IH Ha). reflexivity.
Qed.

Lemma split_length (sep : ascii) (s : string) :
  length (Py.split sep s) = S (Py.count sep s).
Proof.
  induction s as [| c s IH]; simpl.
  - reflexivity.
  - destruct (Ascii.eqb c sep); simpl.
    + rewrite IH. reflexivity.
    + destruct (Py.split sep s) as [| p ps] eqn:E.
      * exfalso. exact (split_nonempty _ _ E).
      * simpl in *. exact IH.
Qed.

Lemma split_one (sep : ascii) (s y : string) :
  Py.split sep s = [y] -> s = y /\ Py.contains sep y = false.
Proof.
  revert y. induction s as [| c s IH]; simpl; intros y H.
  - injection H as <-. split; reflexivity.
  - destruct (Ascii.eqb c sep) eqn:E.
    + injection H as _ Hs. exfalso. exact (split_nonempty _ _ Hs).
    + destruct (Py.split sep s) as [| p ps] eqn:Es.
      { exfalso. exact (split_nonempty _ _ Es). }
      injection H as Hy Hps. subst y ps.
      destruct (IH p eq_refl) as [Hs Hp]. subst p.
      simpl. rewrite E, Hp. split; reflexivity.
Qed.

(** Two pieces: exactly one separator, and the pieces are what stands
    before and after it. *)
Lemma split_two (sep : ascii) (s x y : string) :
  Py.split sep s = [x; y] <->
  s = x ++ String sep y /\ Py.contains sep x = false /\ Py.contains sep y = false.
Proof.
  split.
  - revert x. induction s as [| c s IH]; simpl; intros x H.
    + discriminate.
    + destruct (Ascii.eqb c sep) eqn:E.
      * apply Ascii.eqb_eq in E. subst c.
        injection H as Hx Hs. subst x. simpl.
        destruct (split_one _ _ _ Hs) as [Hy Hc]. subst y. auto.
      * destruct (Py.split sep s) as [| p ps] eqn:Es; [discriminate |].
        injection H as Hx Hps. subst x ps.
        destruct (IH p eq_refl) as (Hs & Hp & Hy).
        subst s. simpl. rewrite E. simpl. auto.
  - intros (Hs & Hx & Hy). subst s.
    rewrite (split_app _ _ _ Hx). rewrite (split_no_sep _ _ Hy). reflexivity.
Qed.

(** ** Hexadecimal text *)

Lemma hex_digits_of_byte (b : byte) :
  Hex.is_digit (Hex.digit (Byte.to_N b / 16)) = true /\
  Hex.is_digit (Hex.digit (Byte.to_N b mod 16)) = true.
Proof. destruct b; vm_compute; split; reflexivity. Qed.

Lemma hexlify_all_digits (bs : list byte) : Hex.all_digits (Hex.hexlify bs) = true.
Proof.
  induction bs as [| b bs IH]; simpl.
  - reflexivity.
  - destruct (hex_digits_of_byte b) as [H1 H2].
    rewrite H1, H2, IH. reflexivity.
Qed.

Lemma hexlify_length (bs : list byte) :
  String.length (Hex.hexlify bs) = (2 * length bs)%nat.
Proof.
  induction bs as [| b bs IH]; simpl.
  - reflexivity.
  - rewrite IH. lia.
Qed.

Lemma dollar_not_digit : Hex.is_digit "$" = false.
Proof. reflexivity. Qed.

Lemma all_digits_no_dollar (s : string) :
  Hex.all_digits s = true -> Py.contains "$" s = false.
Proof.
  induction s as [| c s IH]; simpl; intros H.
  - reflexivity.
  - apply andb_true_iff in H. destruct H as [Hc Hs].
    rewrite (IH Hs), orb_false_r.
    destruct (Ascii.eqb c "$") eqn:E; [| reflexivity].
    apply Ascii.eqb_eq in E. subst c. rewrite dollar_not_digit in Hc. discriminate.
Qed.

Lemma unhexlify_byte (b : byte) :
  match Hex.digit_value (Hex.digit (Byte.to_N b / 16)),
        Hex.digit_value (Hex.digit (Byte.to_N b mod 16)) with
  | Some x, Some y => Byte.of_N (16 * x + y)
  | _, _ => None
  end = Some b.
Proof. destruct b; vm_compute; reflexivity. Qed.

Lemma unhexlify_hexlify (bs : list byte) : Hex.unhexlify (Hex.hexlify bs) = Some bs.
Proof.
  induction bs as [| b bs IH]; cbn [Hex.unhexlify Hex.hexlify].
  - reflexivity.
  - rewrite IH. pose proof (unhexlify_byte b) as H.
    destruct (Hex.digit_value (Hex.digit (Byte.to_N b / 16))); [| discriminate].
    destruct (Hex.digit_value (Hex.digit (Byte.to_N b mod 16))); [| discriminate].
    rewrite H. reflexivity.
Qed.

Lemma unhexlify_length_pair (s : string) :
  (forall bs, Hex.unhexlify s = Some bs -> String.length s = (2 * length bs)%nat) /\
  (forall c bs, Hex.unhexlify (String c s) = Some bs ->
                String.length (String c s) = (2 * length bs)%nat).
Proof.
  induction s as [| l s [IH1 IH2]].
  - split.
    + intros bs H. injection H as <-. reflexivity.
    + intros c bs H. discriminate H.
  - split.
    + exact (IH2 l).
    + intros h bs H. cbn [Hex.unhexlify] in H.
      destruct (Hex.digit_value h); [| discriminate].
      destruct (Hex.digit_value l); [| discriminate].
      destruct (Hex.unhexlify s) as [bs' |]; [| discriminate].
      destruct (Byte.of_N _); [| discriminate].
      injection H as <-. simpl. rewrite (IH1 bs' eq_refl). lia.
Qed.

Lemma unhexlify_length (s : string) (bs : list byte) :
  Hex.unhexlify s = Some bs -> String.length s = (2 * length bs)%nat.
Proof. apply unhexlify_length_pair. Qed.

(** ** SHA-256 produces 32 bytes *)

Lemma digest_length (msg : list byte) : length (SHA256.digest msg) = 32%nat.
Proof.
  unfold SHA256.digest, SHA256.digest_bytes.
  rewrite length_map. repeat rewrite length_app. reflexivity.
Qed.

Lemma hexdigest_length (msg : list byte) : String.length (SHA256.hexdigest msg) = 64%nat.
Proof. unfold SHA256.hexdigest. rewrite hexlify_length, digest_length. reflexivity. Qed.

Lemma hexdigest_all_digits (msg : list byte) :
  Hex.all_digits (SHA256.hexdigest msg) = true.
Proof. apply hexlify_all_digits. Qed.

(** Test vectors of FIPS 180-4 and a message of two blocks. *)
Example sha256_abc :
  SHA256.hexdigest (Py.encode "abc") =
  "ba7816bf8f01cfea414140de5dae2223b00361a396177a9cb410ff61f20015ad".
Proof. vm_compute. reflexivity. Qed.

Example sha256_empty :
  SHA256.hexdigest (Py.encode "") =
  "e3b0c44298fc1c149afbf4c8996fb92427ae41e4649b934ca495991b7852b855".
Proof. vm_compute. reflexivity. Qed.

Example sha256_two_blocks :
  SHA256.hexdigest (repeat "a"%byte 70) =
  "6bd5e5034855a11241f0dee8fc72850ffd9955b28347a86428b5fa19119f6ad0".
Proof. vm_compute. reflexivity. Qed.

(** ** Credential hasher *)

Lemma hash_password_eq (token_bytes : list byte) (password : string) :
  hash_password token_bytes password =
  Hex.hexlify token_bytes ++
  String "$" (SHA256.hexdigest (Py.encode (Hex.hexlify token_bytes ++ password))).
Proof. reflexivity. Qed.

Lemma verify_password_true_iff (password stored_hash : string) :
  verify_password password stored_hash = true <->
  exists salt hashed,
    Py.split "$" stored_hash = [salt; hashed] /\
    SHA256.hexdigest (Py.encode (salt ++ password)) = hashed.
Proof.
  unfold verify_password, verify_password_try. split.
  - destruct (Py.split "$" stored_hash) as [| salt [| hashed [| z l]]]; try discriminate.
    intros H. apply String.eqb_eq in H. exists salt, hashed. split; [reflexivity | exact H].
  - intros (salt & hashed & Hs & Hd). rewrite Hs. apply String.eqb_eq. exact Hd.
Qed.

Lemma hash_password_split (token_bytes : list byte) (password : string) :
  Py.split "$" (hash_password token_bytes password) =
  [Hex.hexlify token_bytes;
   SHA256.hexdigest (Py.encode (Hex.hexlify token_bytes ++ password))].
Proof.
  rewrite hash_password_eq. apply split_two. split; [reflexivity |].
  split; apply all_digits_no_dollar.
  - apply hexlify_all_digits.
  - apply hexdigest_all_digits.
Qed.

Lemma verify_password_accepts_hash (token_bytes : list byte) (password : string) :
  verify_password password (hash_password token_bytes password) = true.
Proof.
  apply verify_password_true_iff. eexists. eexists.
  split; [apply hash_password_split | reflexivity].
Qed.

(** C1. For every password [p] and every draw of the salt,
    [verify_password p (hash_password p)] is true, and the stored value is
    [salt$digest]: a hexadecimal salt (two digits per drawn byte), a dollar
    sign, and the 64 hexadecimal digits of the SHA-256 digest of salt+password. *)
Theorem verify_hash_password (token_bytes : list byte) (password : string) :
  verify_password password (hash_password token_bytes password) = true /\
  exists salt digest,
    hash_password token_bytes password = salt ++ "$" ++ digest /\
    salt = Hex.hexlify token_bytes /\
    Hex.all_digits salt = true /\
    String.length salt = (2 * length token_bytes)%nat /\
    digest = SHA256.hexdigest (Py.encode (salt ++ password)) /\
    Hex.all_digits digest = true /\
    String.length digest = 64%nat /\
    Py.split "$" (hash_password token_bytes password) = [salt; digest].
Proof.
  split.
  - apply verify_password_accepts_hash.
  - exists (Hex.hexlify token_bytes).
    exists (SHA256.hexdigest (Py.encode (Hex.hexlify token_bytes ++ password))).
    split; [apply hash_password_eq |].
    split; [reflexivity |].
    split; [apply hexlify_all_digits |].
    split; [apply hexlify_length |].
    split; [reflexivity |].
    split; [apply hexdigest_all_digits |].
    split; [apply hexdigest_length | apply hash_password_split].
Qed.

(** C9. [verify_password] is a total function into the booleans.  It answers
    true exactly when the stored value is [salt$digest] with a single dollar
    sign and the digest recomputed from salt+password equals [digest]; on
    every other stored value it answers false.  In particular, when the
    number of dollar signs is not one, the unpacking raises [ValueError]
    inside the [try] and the function returns false. *)
Theorem verify_password_total (password stored_hash : string) :
  (verify_password password stored_hash = true <->
   exists salt hashed,
     stored_hash = salt ++ "$" ++ hashed /\
     Py.contains "$" salt = false /\ Py.contains "$" hashed = false /\
     SHA256.hexdigest (Py.encode (salt ++ password)) = hashed) /\
  (verify_password password stored_hash = false <->
   forall salt hashed,
     Py.split "$" stored_hash = [salt; hashed] ->
     SHA256.hexdigest (Py.encode (salt ++ password)) <> hashed) /\
  (Py.count "$" stored_hash <> 1%nat ->
   verify_password_try password stored_hash = Raise ValueError /\
   verify_password password stored_hash = false).
Proof.
  split; [| split].
  - rewrite verify_password_true_iff. split.
    + intros (salt & hashed & Hs & Hd). exists salt, hashed.
      apply split_two in Hs. destruct Hs as (Hs & Hx & Hy). auto.
    + intros (salt & hashed & Hs & Hx & Hy & Hd). exists salt, hashed.
      split; [| exact Hd]. apply split_two. auto.
  - split.
    + intros Hf salt hashed Hs Hd.
      assert (Ht : verify_password password stored_hash = true).
      { apply verify_password_true_iff. exists salt, hashed. auto. }
      rewrite Hf in Ht. discriminate.
    + intros H. destruct (verify_password password stored_hash) eqn:E; [| reflexivity].
      apply verify_password_true_iff in E. destruct E as (salt & hashed & Hs & Hd).
      exfalso. exact (H salt hashed Hs Hd).
  - intros Hc. pose proof (split_length "$" stored_hash) as L.
    unfold verify_password, verify_password_try.
    destruct (Py.split "$" stored_hash) as [| salt [| hashed [| z l]]]; simpl in L;
      try (split; reflexivity).
    exfalso. apply Hc. lia.
Qed.

(** ** Identifiers *)

Lemma ObjectId_eqb_eq (a b : ObjectId.t) : ObjectId.eqb a b = true <-> a = b.
Proof.
  revert b. induction a as [| x a IH]; intros [| y b]; simpl; split; intros H;
    try reflexivity; try discriminate.
  - apply andb_true_iff in H. destruct H as [Hxy Hab].
    apply Byte.byte_dec_bl in Hxy. apply IH in Hab. subst. reflexivity.
  - injection H as -> ->. apply andb_true_iff. split.
    + apply Byte.byte_dec_lb. reflexivity.
    + apply IH. reflexivity.
Qed.

Lemma ObjectId_eqb_refl (a : ObjectId.t) : ObjectId.eqb a a = true.
Proof. apply ObjectId_eqb_eq. reflexivity. Qed.

Lemma is_valid_str (o : ObjectId.t) :
  ObjectId.is_valid (ObjectId.str o) = true <-> ObjectId.well_formed o.
Proof.
  unfold ObjectId.is_valid, ObjectId.str, ObjectId.well_formed.
  rewrite hexlify_all_digits, andb_true_r, hexlify_length, Nat.eqb_eq. lia.
Qed.

(** [ObjectId(str(o)) == o] for a twelve-byte identifier. *)
Lemma parse_str (o : ObjectId.t) :
  ObjectId.well_formed o -> ObjectId.parse (ObjectId.str o) = Some o.
Proof.
  intros H. unfold ObjectId.parse. apply is_valid_str in H. rewrite H.
  apply unhexlify_hexlify.
Qed.

Lemma parse_well_formed (s : string) (o : ObjectId.t) :
  ObjectId.parse s = Some o -> ObjectId.well_formed o.
Proof.
  unfold ObjectId.parse, ObjectId.is_valid, ObjectId.well_formed.
  destruct (Nat.eqb (String.length s) 24) eqn:L; simpl; [| discriminate].
  destruct (Hex.all_digits s); [| discriminate].
  intros H. apply unhexlify_length in H. apply Nat.eqb_eq in L. lia.
Qed.

(** ** Lookups in the store *)

Lemma find_app {A : Type} (f : A -> bool) (l1 l2 : list A) :
  find f (l1 ++ l2) = match find f l1 with Some x => Some x | None => find f l2 end.
Proof.
  induction l1 as [| a l1 IH]; simpl.
  - reflexivity.
  - destruct (f a); [reflexivity | exact IH].
Qed.

Lemma find_none_iff {A : Type} (f : A -> bool) (l : list A) :
  find f l = None <-> forall x, In x l -> f x = false.
Proof.
  split.
  - apply find_none.
  - induction l as [| a l IH]; simpl; intros H.
    + reflexivity.
    + rewrite (H a (or_introl eq_refl)). apply IH. intros x Hx. apply H. right. exact Hx.
Qed.

Lemma find_user_some (d : DB) (x : string) (u : authuser.doc) :
  find_user d x = Some u ->
  In u (db_authuser d) /\ ObjectId.parse x = Some (authuser._id u) /\
  ObjectId.well_formed (authuser._id u).
Proof.
  unfold find_user. destruct (ObjectId.is_valid x); [| discriminate].
  destruct (ObjectId.parse x) as [oid |] eqn:P; [| discriminate].
  intros H. apply find_some in H. destruct H as [Hin Heq].
  apply ObjectId_eqb_eq in Heq. subst oid.
  split; [exact Hin |]. split; [reflexivity |]. exact (parse_well_formed _ _ P).
Qed.

Lemma find_user_str (d : DB) (o : ObjectId.t) :
  ObjectId.well_formed o ->
  find_user d (ObjectId.str o) =
  find (fun u => ObjectId.eqb (authuser._id u) o) (db_authuser d).
Proof.
  intros H. unfold find_user. rewrite (parse_str o H).
  apply is_valid_str in H. rewrite H. reflexivity.
Qed.

(** The user a lookup returned is found again under the text of its own
    identifier. *)
Lemma find_user_again (d : DB) (x : string) (u : authuser.doc) :
  find_user d x = Some u -> find_user d (ObjectId.str (authuser._id u)) = Some u.
Proof.
  intros H. destruct (find_user_some _ _ _ H) as (_ & P & W).
  rewrite (find_user_str d _ W).
  unfold find_user in H. rewrite P in H.
  destruct (ObjectId.is_valid x); [exact H | discriminate].
Qed.

Lemma find_user_none (d : DB) (x : string) :
  find_user d x = None <->
  (ObjectId.parse x = None \/
   exists oid, ObjectId.parse x = Some oid /\
               forall u, In u (db_authuser d) -> authuser._id u <> oid).
Proof.
  unfold find_user, ObjectId.parse.
  destruct (ObjectId.is_valid x).
  - destruct (Hex.unhexlify x) as [oid |].
    + rewrite find_none_iff. split.
      * intros H. right. exists oid. split; [reflexivity |].
        intros u Hu E. apply H in Hu. rewrite E, ObjectId_eqb_refl in Hu. discriminate.
      * intros [H | (o & Ho & H)]; [discriminate |]. injection Ho as <-.
        intros u Hu. destruct (ObjectId.eqb (authuser._id u) oid) eqn:E; [| reflexivity].
        apply ObjectId_eqb_eq in E. exfalso. exact (H u Hu E).
    + split; auto.
  - split; auto.
Qed.

Lemma find_user_same_users (d d' : DB) (x : string) :
  db_authuser d' = db_authuser d -> find_user d' x = find_user d x.
Proof. intros H. unfold find_user. rewrite H. reflexivity. Qed.

(** ** Session store *)

Lemma fresh_token_find (d : DB) (tok : string) (t : datetime) :
  fresh_token d tok = true -> find_session d t tok = None.
Proof.
  unfold fresh_token, find_session. intros H. apply find_none_iff.
  intros s Hs. rewrite forallb_forall in H. specialize (H s Hs).
  apply negb_true_iff in H. rewrite H. reflexivity.
Qed.

Lemma create_session_eq (d : DB) (e : session_env) (user_id : string) :
  create_session d e user_id =
  (mkDB (db_authuser d)
        (db_session d ++
         [session.make (database.new_id (session_inserted e)) user_id (token_urlsafe e)
                       (now e + timedelta_days 7)%Z
                       (database.stamp (session_inserted e))
                       (database.stamp (session_inserted e))])
        (db_chatmessage d),
   token_urlsafe e).
Proof. reflexivity. Qed.

(** A session is valid exactly when the time of the query is strictly before
    its [expires_at]. *)
Lemma find_session_valid (d : DB) (t : datetime) (tok : string) :
  find_session d t tok <> None <->
  exists s, In s (db_session d) /\ session.token s = tok /\ (t < session.expires_at s)%Z.
Proof.
  unfold find_session. split.
  - destruct (find _ _) as [s |] eqn:F; [| intros H; exfalso; apply H; reflexivity].
    intros _. apply find_some in F. destruct F as [Hin Hp].
    apply andb_true_iff in Hp. destruct Hp as [Ht He].
    exists s. split; [exact Hin |]. split.
    + apply String.eqb_eq. exact Ht.
    + apply Z.ltb_lt. exact He.
  - intros (s & Hin & Ht & He) F.
    rewrite find_none_iff in F. specialize (F s Hin).
    apply String.eqb_eq in Ht. apply Z.ltb_lt in He. rewrite Ht, He in F. discriminate.
Qed.

(** C2. A session is valid exactly when the time of the query is strictly
    before its [expires_at], and [create_session] sets [expires_at] to its
    clock reading plus seven days.  So for a session created at time [T] for
    a stored user, under a token no other session carries,
    [get_user_by_token] returns the user at every [T'] with
    [T <= T' < T + 7 days] and returns none at every [T' >= T + 7 days],
    in particular at exactly [T + 7 days]. *)
Theorem session_valid_for_seven_days
    (d : DB) (e : session_env) (user_id : string) (user : authuser.doc) :
  find_user d user_id = Some user ->
  fresh_token d (token_urlsafe e) = true ->
  let d' := fst (create_session d e user_id) in
  let token := snd (create_session d e user_id) in
  let T := now e in
  (exists s, db_session d' = (db_session d ++ [s])%list /\
             session.token s = token /\ session.user_id s = user_id /\
             session.expires_at s = (T + timedelta_days 7)%Z) /\
  (forall T' tok,
      find_session d' T' tok <> None <->
      exists s, In s (db_session d') /\ session.token s = tok /\
                (T' < session.expires_at s)%Z) /\
  (forall T', (T <= T' < T + timedelta_days 7)%Z ->
              get_user_by_token (Some d') T' token = Some user) /\
  (forall T', (T' >= T + timedelta_days 7)%Z ->
              get_user_by_token (Some d') T' token = None) /\
  get_user_by_token (Some d') (T + timedelta_days 7)%Z token = None.
Proof.
  intros Hu Hf d' token T. subst d' token T. rewrite create_session_eq.
  cbn [fst snd].
  assert (G : forall T',
             get_user_by_token
               (Some (mkDB (db_authuser d)
                  (db_session d ++
                   [session.make (database.new_id (session_inserted e)) user_id
                      (token_urlsafe e) (now e + timedelta_days 7)%Z
                      (database.stamp (session_inserted e))
                      (database.stamp (session_inserted e))])
                  (db_chatmessage d))) T' (token_urlsafe e) =
             if (T' <? now e + timedelta_days 7)%Z then Some user else None).
  { intros T'. unfold get_user_by_token, find_session. cbn [db_session].
    rewrite find_app.
    pose proof (fresh_token_find d (token_urlsafe e) T' Hf) as Hn.
    unfold find_session in Hn. rewrite Hn.
    cbn [find session.token session.expires_at].
    rewrite String.eqb_refl. cbn [andb].
    destruct (T' <? now e + timedelta_days 7)%Z; [| reflexivity].
    cbn [session.user_id]. rewrite <- Hu. apply find_user_same_users. reflexivity. }
  split.
  - eexists. split; [reflexivity |]. cbn [session.token session.user_id session.expires_at].
    auto.
  - split; [intros T' tok; apply find_session_valid |].
    split; [| split].
    + intros T' HT. rewrite G.
      destruct (Z.ltb_spec T' (now e + timedelta_days 7)); [reflexivity | lia].
    + intros T' HT. rewrite G.
      destruct (Z.ltb_spec T' (now e + timedelta_days 7)); [lia | reflexivity].
    + rewrite G. rewrite Z.ltb_irrefl. reflexivity.
Qed.

Lemma session_valid_for_seven_days_witness :
  get_user_by_token
    (Some (fst (create_session Sample.with_alice Sample.login_env
                               (ObjectId.str (authuser._id Sample.alice)))))
    (2000 + timedelta_days 7 - 1)%Z "tokB" = Some Sample.alice /\
  get_user_by_token
    (Some (fst (create_session Sample.with_alice Sample.login_env
                               (ObjectId.str (authuser._id Sample.alice)))))
    (2000 + timedelta_days 7)%Z "tokB" = None.
Proof.
  pose proof (session_valid_for_seven_days Sample.with_alice Sample.login_env
                (ObjectId.str (authuser._id Sample.alice)) Sample.alice
                eq_refl eq_refl) as H.
  cbv zeta in H. destruct H as (_ & _ & Hin & _ & Hout).
  split.
  - apply (Hin (2000 + timedelta_days 7 - 1)%Z). unfold timedelta_days. simpl. lia.
  - exact Hout.
Defined.

(** ** Auth gateway: register and login *)

Lemma find_user_by_email_some (d : DB) (email : string) :
  email_taken d email <-> exists u, find_user_by_email d email = Some u.
Proof.
  unfold email_taken, find_user_by_email. split.
  - intros (u & Hin & He).
    destruct (find _ _) as [v |] eqn:F; [exists v; reflexivity |].
    rewrite find_none_iff in F. specialize (F u Hin).
    apply String.eqb_neq in F. contradiction.
  - intros (u & F). apply find_some in F. destruct F as [Hin He].
    exists u. split; [exact Hin | apply String.eqb_eq; exact He].
Qed.

Lemma find_user_by_email_none (d : DB) (email : string) :
  ~ email_taken d email <-> find_user_by_email d email = None.
Proof.
  rewrite find_user_by_email_some. split.
  - intros H. destruct (find_user_by_email d email) as [u |]; [| reflexivity].
    exfalso. apply H. exists u. reflexivity.
  - intros H (u & F). rewrite H in F. discriminate.
Qed.

Lemma register_fresh_eq (d : DB) (e : register_env) (payload : RegisterRequest.t) :
  find_user_by_email d (RegisterRequest.email payload) = None ->
  register (Some d) e payload =
  (Some (mkDB
     (db_authuser d ++
      [authuser.make (database.new_id (user_inserted e))
         (RegisterRequest.name payload) (RegisterRequest.email payload)
         (hash_password (salt_bytes e) (RegisterRequest.password payload))
         (database.stamp (user_inserted e)) (database.stamp (user_inserted e))])
     (db_session d ++
      [session.make (database.new_id (session_inserted (session_env_of e)))
         (ObjectId.str (database.new_id (user_inserted e)))
         (token_urlsafe (session_env_of e))
         (now (session_env_of e) + timedelta_days 7)%Z
         (database.stamp (session_inserted (session_env_of e)))
         (database.stamp (session_inserted (session_env_of e)))])
     (db_chatmessage d)),
   Return (LoginResponse.make (token_urlsafe (session_env_of e))
             (RegisterRequest.name payload) (RegisterRequest.email payload))).
Proof. intros H. unfold register. rewrite H. reflexivity. Qed.

(** C6. On every store and for every registration request: when a stored
    user already has the requested email, [register] fails with 400 "Email
    already registered" and the store is unchanged; otherwise it appends
    exactly one user, whose [password_hash] is [hash_password] of the given
    password, appends exactly one session, whose [user_id] is the identifier
    of that user, and returns the token of that session with the submitted
    name and email.  Registering once more with the same email on the
    resulting store fails with the same 400. *)
Theorem register_outcomes (d : DB) (e : register_env) (payload : RegisterRequest.t) :
  (email_taken d (RegisterRequest.email payload) ->
   register (Some d) e payload =
   (Some d, Raise (HTTPException 400 "Email already registered"))) /\
  (~ email_taken d (RegisterRequest.email payload) ->
   exists u s d',
     register (Some d) e payload =
     (Some d',
      Return (LoginResponse.make (session.token s) (RegisterRequest.name payload)
                                 (RegisterRequest.email payload))) /\
     db_authuser d' = (db_authuser d ++ [u])%list /\
     db_session d' = (db_session d ++ [s])%list /\
     db_chatmessage d' = db_chatmessage d /\
     authuser.name u = RegisterRequest.name payload /\
     authuser.email u = RegisterRequest.email payload /\
     authuser.password_hash u =
       hash_password (salt_bytes e) (RegisterRequest.password payload) /\
     verify_password (RegisterRequest.password payload) (authuser.password_hash u) = true /\
     session.user_id s = ObjectId.str (authuser._id u) /\
     session.token s = token_urlsafe (session_env_of e) /\
     session.expires_at s = (now (session_env_of e) + timedelta_days 7)%Z /\
     forall e' payload',
       RegisterRequest.email payload' = RegisterRequest.email payload ->
       register (Some d') e' payload' =
       (Some d', Raise (HTTPException 400 "Email already registered"))).
Proof.
  split.
  - intros H. apply find_user_by_email_some in H. destruct H as [u F].
    unfold register. rewrite F. reflexivity.
  - intros H. apply find_user_by_email_none in H.
    rewrite (register_fresh_eq d e payload H).
    exists (authuser.make (database.new_id (user_inserted e))
              (RegisterRequest.name payload) (RegisterRequest.email payload)
              (hash_password (salt_bytes e) (RegisterRequest.password payload))
              (database.stamp (user_inserted e)) (database.stamp (user_inserted e))).
    exists (session.make (database.new_id (session_inserted (session_env_of e)))
              (ObjectId.str (database.new_id (user_inserted e)))
              (token_urlsafe (session_env_of e))
              (now (session_env_of e) + timedelta_days 7)%Z
              (database.stamp (session_inserted (session_env_of e)))
              (database.stamp (session_inserted (session_env_of e)))).
    eexists. split; [reflexivity |].
    cbn [db_authuser db_session db_chatmessage authuser.name authuser.email
         authuser.password_hash authuser._id session.user_id session.token
         session.expires_at].
    repeat (split; [reflexivity |]).
    split; [apply verify_password_accepts_hash |].
    repeat (split; [reflexivity |]).
    intros e' payload' He.
    unfold register, find_user_by_email. cbn [db_authuser].
    rewrite find_app. unfold find_user_by_email in H. rewrite He, H.
    cbn [find authuser.email]. rewrite String.eqb_refl. reflexivity.
Qed.

(** C5. A login with an email no stored user has and a login with a stored
    email whose password does not verify end alike: both raise 401 "Invalid
    credentials" and leave the store as it was, so the outcome does not tell
    which of the two checks failed. *)
Theorem login_same_error
    (d : DB) (e1 e2 : session_env) (unknown wrong : LoginRequest.t) (u : authuser.doc) :
  ~ email_taken d (LoginRequest.email unknown) ->
  find_user_by_email d (LoginRequest.email wrong) = Some u ->
  verify_password (LoginRequest.password wrong) (authuser.password_hash u) = false ->
  login (Some d) e1 unknown = (Some d, Raise (HTTPException 401 "Invalid credentials")) /\
  login (Some d) e2 wrong = (Some d, Raise (HTTPException 401 "Invalid credentials")) /\
  login (Some d) e1 unknown = login (Some d) e2 wrong.
Proof.
  intros Hn Hu Hv. apply find_user_by_email_none in Hn.
  assert (A : login (Some d) e1 unknown =
              (Some d, Raise (HTTPException 401 "Invalid credentials"))).
  { unfold login. rewrite Hn. reflexivity. }
  assert (B : login (Some d) e2 wrong =
              (Some d, Raise (HTTPException 401 "Invalid credentials"))).
  { unfold login. rewrite Hu, Hv. reflexivity. }
  split; [exact A |]. split; [exact B |]. rewrite A, B. reflexivity.
Qed.

Lemma login_same_error_witness :
  login (Some Sample.with_alice) Sample.login_env (LoginRequest.make "b@x.com" "pw1") =
  login (Some Sample.with_alice) Sample.login_env (LoginRequest.make "a@x.com" "pw2").
Proof.
  refine (proj2 (proj2 (login_same_error Sample.with_alice Sample.login_env Sample.login_env
                          (LoginRequest.make "b@x.com" "pw1")
                          (LoginRequest.make "a@x.com" "pw2") Sample.alice _ _ _))).
  - intros (u & Hin & He). destruct Hin as [<- | []]. discriminate He.
  - reflexivity.
  - vm_compute. reflexivity.
Defined.

(** ** Chat feed: length check on post *)

Lemma ChatMessage_new_bad_length (user_id content : string) :
  String.length content = 0%nat \/ (2000 < String.length content)%nat ->
  ChatMessage.new user_id content = Raise ValidationError.
Proof.
  intros H. unfold ChatMessage.new.
  destruct (Nat.leb_spec 1 (String.length content)) as [H1 | H1].
  - destruct (Nat.leb_spec (String.length content) 2000) as [H2 | H2].
    + exfalso. lia.
    + reflexivity.
  - reflexivity.
Qed.

(** C8. Whoever the authenticated user is, [post_message] fails when the
    content is empty or longer than 2000 characters: the constructor of
    [ChatMessage] raises on its length constraints, before anything is
    stored, so no message is created, the store is unchanged and no view is
    returned.  The same holds through the dependency of [POST /chat]. *)
Theorem post_message_checks_length
    (db : option DB) (i : database.inserted) (payload : ChatPostRequest.t)
    (user : authuser.doc) :
  String.length (ChatPostRequest.content payload) = 0%nat \/
  (2000 < String.length (ChatPostRequest.content payload))%nat ->
  ChatMessage.new (ObjectId.str (authuser._id user)) (ChatPostRequest.content payload) =
    Raise ValidationError /\
  (forall d, db = Some d ->
             post_message db i payload user = (Some d, Raise ValidationError)) /\
  (exists e, post_message db i payload user = (db, Raise e)) /\
  (forall now authorization,
      exists e, post_chat db now authorization i payload = (db, Raise e)).
Proof.
  intros H.
  pose proof (ChatMessage_new_bad_length (ObjectId.str (authuser._id user)) _ H) as N.
  split; [exact N |].
  assert (P : forall u, exists e, post_message db i payload u = (db, Raise e)).
  { intros u0. unfold post_message. destruct db as [d |].
    - rewrite (ChatMessage_new_bad_length (ObjectId.str (authuser._id u0)) _ H).
      eexists. reflexivity.
    - eexists. reflexivity. }
  split; [| split].
  - intros d ->. unfold post_message. rewrite N. reflexivity.
  - apply P.
  - intros t a. unfold post_chat.
    destruct (get_current_user db t a) as [u0 | e0].
    + apply P.
    + eexists. reflexivity.
Qed.

Lemma post_message_checks_length_witness :
  post_message (Some Sample.with_alice) Sample.hi_inserted (ChatPostRequest.make "")
               Sample.alice =
  (Some Sample.with_alice, Raise ValidationError).
Proof.
  refine (proj1 (proj2 (post_message_checks_length (Some Sample.with_alice)
                          Sample.hi_inserted (ChatPostRequest.make "") Sample.alice _))
                _ eq_refl).
  left. reflexivity.
Defined.

(** ** The bearer header *)

Lemma lower_char_space (c : ascii) :
  Ascii.eqb (Py.lower_char c) " " = Ascii.eqb c " ".
Proof.
  destruct c as [b0 b1 b2 b3 b4 b5 b6 b7];
    destruct b0, b1, b2, b3, b4, b5, b6, b7; vm_compute; reflexivity.
Qed.

Lemma lower_app (a b : string) : Py.lower (a ++ b) = Py.lower a ++ Py.lower b.
Proof.
  induction a as [| c a IH]; simpl.
  - reflexivity.
  - rewrite IH. reflexivity.
Qed.

Lemma contains_lower_space (s : string) :
  Py.contains " " (Py.lower s) = Py.contains " " s.
Proof.
  induction s as [| c s IH]; simpl.
  - reflexivity.
  - rewrite lower_char_space, IH. reflexivity.
Qed.

Lemma split_max_app (sep : ascii) (a b : string) :
  Py.contains sep a = false ->
  Py.split_max sep (a ++ String sep b) 1 = [a; b].
Proof.
  induction a as [| c a IH]; simpl; intros H.
  - rewrite Ascii.eqb_refl. destruct b; reflexivity.
  - apply orb_false_iff in H. destruct H as [Hc Ha].
    rewrite Hc. rewrite (IH Ha). reflexivity.
Qed.

Lemma prefix_app (p s : string) : String.prefix p (p ++ s) = true.
Proof.
  induction p as [| c p IH]; simpl.
  - destruct s; reflexivity.
  - destruct (ascii_dec c c) as [_ | N]; [exact IH | contradiction].
Qed.

Lemma truthy_app_cons (a : string) (c : ascii) (b : string) :
  Py.truthy (Some (a ++ String c b)) = true.
Proof. destruct a; reflexivity. Qed.

(** A header that passes the scheme check is a casing of "bearer", one
    space, and the rest; the rest is what follows the first seven
    characters. *)
Lemma bearer_header_shape (a : string) :
  Py.startswith (Py.lower a) "bearer " = true ->
  exists scheme,
    a = scheme ++ String " " (Py.drop 7 a) /\
    Py.lower scheme = "bearer" /\
    Py.contains " " scheme = false.
Proof.
  unfold Py.startswith.
  destruct a as [| c1 [| c2 [| c3 [| c4 [| c5 [| c6 [| c7 rest]]]]]]];
    cbn [Py.lower String.prefix];
    repeat match goal with
           | |- (if ?X then _ else _) = true -> _ => destruct X; [| discriminate]
           end;
    try discriminate.
  intros _.
  exists (String c1 (String c2 (String c3 (String c4 (String c5 (String c6 ""))))))%string.
  assert (S7 : c7 = " "%char).
  { apply Ascii.eqb_eq. rewrite <- lower_char_space. apply Ascii.eqb_eq. congruence. }
  split; [| split].
  - cbn [Py.drop append]. rewrite S7. reflexivity.
  - cbn [Py.lower]. congruence.
  - cbn [Py.contains].
    repeat match goal with
           | H : _ = Py.lower_char ?c |- context [Ascii.eqb ?c " "] =>
               rewrite <- (lower_char_space c), <- H; clear H
           end.
    reflexivity.
Qed.

Lemma bearer_casing_no_space (scheme : string) :
  Py.lower scheme = "bearer" -> Py.contains " " scheme = false.
Proof. intros H. rewrite <- contains_lower_space, H. reflexivity. Qed.

(** What [get_current_user] does with a casing of "bearer", a space and a
    token. *)
Lemma get_current_user_bearer
    (db : option DB) (now : datetime) (scheme t : string) :
  Py.lower scheme = "bearer" ->
  get_current_user db now (Some (scheme ++ String " " t)) =
  match get_user_by_token db now t with
  | Some user => Return user
  | None => Raise (HTTPException 401 "Invalid or expired token")
  end.
Proof.
  intros H. unfold get_current_user.
  rewrite truthy_app_cons. cbn [negb].
  unfold Py.startswith. rewrite lower_app. cbn [Py.lower]. rewrite H.
  change (Py.lower_char " ") with " "%char.
  change ("bearer" ++ String " " (Py.lower t)) with ("bearer " ++ Py.lower t).
  rewrite prefix_app. cbn [negb].
  rewrite (split_max_app " " scheme t (bearer_casing_no_space scheme H)).
  cbn [nth_error]. destruct (get_user_by_token db now t); reflexivity.
Qed.

Lemma get_user_by_token_no_session (db : option DB) (now : datetime) (tok : string) :
  (forall d, db = Some d -> find_session d now tok = None) ->
  get_user_by_token db now tok = None.
Proof.
  intros H. unfold get_user_by_token. destruct db as [d |]; [| reflexivity].
  rewrite (H d eq_refl). reflexivity.
Qed.

(** C4, as the code has it.  [get_current_user] raises 401 "Missing
    Authorization header" when the header is absent or is the empty string;
    else 401 "Invalid Authorization header" when the header, in lower case,
    does not start with "bearer "; else 401 "Invalid or expired token" when
    [get_user_by_token] returns none for the text after the first seven
    characters, which it does whenever the store is not configured or holds
    no unexpired session with that token; else it returns the user found.
    There is no other outcome, and the checks are made in this order. *)
Theorem get_current_user_outcomes
    (db : option DB) (now : datetime) (authorization : option string) :
  get_current_user db now authorization =
  match authorization with
  | None => Raise (HTTPException 401 "Missing Authorization header")
  | Some EmptyString => Raise (HTTPException 401 "Missing Authorization header")
  | Some a =>
      if Py.startswith (Py.lower a) "bearer " then
        match get_user_by_token db now (Py.drop 7 a) with
        | Some user => Return user
        | None => Raise (HTTPException 401 "Invalid or expired token")
        end
      else Raise (HTTPException 401 "Invalid Authorization header")
  end /\
  forall tok,
    (forall d, db = Some d ->
               forall s, In s (db_session d) ->
                         session.token s = tok -> (session.expires_at s <= now)%Z) ->
    get_user_by_token db now tok = None.
Proof.
  split.
  - destruct authorization as [[| c a] |]; try reflexivity.
    destruct (Py.startswith (Py.lower (String c a)) "bearer ") eqn:P.
    + destruct (bearer_header_shape _ P) as (scheme & Ha & Hl & _).
      rewrite Ha at 1. apply get_current_user_bearer. exact Hl.
    + unfold get_current_user. cbn [Py.truthy negb]. rewrite P. reflexivity.
  - intros tok H. apply get_user_by_token_no_session. intros d Hd.
    unfold find_session. apply find_none_iff. intros s Hs.
    destruct (String.eqb_spec (session.token s) tok) as [E | E]; [| reflexivity].
    specialize (H d Hd s Hs E). cbn [andb]. apply Z.ltb_ge. exact H.
Qed.

(** An empty header is present and does not start with the scheme, yet the
    outcome is the one of a missing header. *)
Lemma get_current_user_empty_header :
  Some "" <> (None : option string) /\
  Py.startswith (Py.lower "") "bearer " = false /\
  get_current_user (Some Sample.with_alice) 3000%Z (Some "") =
    Raise (HTTPException 401 "Missing Authorization header") /\
  get_current_user (Some Sample.with_alice) 3000%Z (Some "") <>
    Raise (HTTPException 401 "Invalid Authorization header").
Proof.
  split; [discriminate |]. split; [reflexivity |]. split; [reflexivity |].
  vm_compute. discriminate.
Qed.

(** C10. The scheme check does not look at the case of the scheme word: for
    every casing of "bearer" and every token [t], the header made of the
    scheme word, a space and [t] passes the check and is resolved as the
    token [t], exactly as "Bearer t" is.  The token is everything after the
    first space, so a scheme word followed by a space and nothing else is
    not a malformed header: it is resolved as the empty token, which fails
    with 401 "Invalid or expired token" as no stored session has an empty
    token. *)
Theorem bearer_scheme_any_case (db : option DB) (now : datetime) (scheme : string) :
  Py.lower scheme = "bearer" ->
  (forall t,
      get_current_user db now (Some (scheme ++ " " ++ t)) =
      match get_user_by_token db now t with
      | Some user => Return user
      | None => Raise (HTTPException 401 "Invalid or expired token")
      end) /\
  (forall t,
      get_current_user db now (Some (scheme ++ " " ++ t)) =
      get_current_user db now (Some ("Bearer " ++ t))) /\
  (forall t, nth_error (Py.split_max " " (scheme ++ " " ++ t) 1) 1 = Some t) /\
  get_current_user db now (Some (scheme ++ " ")) <>
    Raise (HTTPException 401 "Invalid Authorization header") /\
  ((forall d, db = Some d ->
              forall s, In s (db_session d) -> session.token s <> "") ->
   get_current_user db now (Some (scheme ++ " ")) =
     Raise (HTTPException 401 "Invalid or expired token")).
Proof.
  intros H.
  assert (E : get_current_user db now (Some (scheme ++ " ")) =
              match get_user_by_token db now "" with
              | Some user => Return user
              | None => Raise (HTTPException 401 "Invalid or expired token")
              end).
  { exact (get_current_user_bearer db now scheme "" H). }
  split; [| split; [| split; [| split]]].
  - intros t. exact (get_current_user_bearer db now scheme t H).
  - intros t. rewrite append_cons.
    rewrite (get_current_user_bearer db now scheme t H).
    symmetry. exact (get_current_user_bearer db now "Bearer" t eq_refl).
  - intros t. rewrite append_cons.
    rewrite (split_max_app " " scheme t (bearer_casing_no_space scheme H)).
    reflexivity.
  - rewrite E. destruct (get_user_by_token db now ""); discriminate.
  - intros Hs. rewrite E.
    rewrite get_user_by_token_no_session; [reflexivity |].
    intros d Hd. unfold find_session. apply find_none_iff. intros s Hin.
    specialize (Hs d Hd s Hin). apply String.eqb_neq in Hs. rewrite Hs. reflexivity.
Qed.

Lemma bearer_scheme_any_case_witness :
  get_current_user (Some Sample.with_alice) 3000%Z (Some "bEaReR tokA") =
  get_current_user (Some Sample.with_alice) 3000%Z (Some "Bearer tokA").
Proof.
  exact (proj1 (proj2 (bearer_scheme_any_case (Some Sample.with_alice) 3000%Z
                         "bEaReR" eq_refl)) "tokA").
Defined.

(** ** Chat feed: ordering *)

Section Sorted_lists.

Context {A : Type} (R : A -> A -> Prop).

Lemma StronglySorted_app (l1 l2 : list A) :
  StronglySorted R l1 -> StronglySorted R l2 ->
  (forall a b, In a l1 -> In b l2 -> R a b) ->
  StronglySorted R (l1 ++ l2).
Proof.
  induction l1 as [| x l1 IH]; simpl; intros H1 H2 H.
  - exact H2.
  - apply StronglySorted_inv in H1. destruct H1 as [S1 F1].
    constructor.
    + apply IH; [exact S1 | exact H2 |]. intros a b Ha Hb. apply H; auto.
    + apply Forall_app. split; [exact F1 |].
      apply Forall_forall. intros b Hb. apply H; auto.
Qed.

Lemma StronglySorted_app_inv (l1 l2 : list A) :
  StronglySorted R (l1 ++ l2) ->
  StronglySorted R l1 /\ StronglySorted R l2 /\
  (forall a b, In a l1 -> In b l2 -> R a b).
Proof.
  induction l1 as [| x l1 IH]; simpl; intros H.
  - split; [constructor |]. split; [exact H |]. intros a b [].
  - apply StronglySorted_inv in H. destruct H as [S F].
    destruct (IH S) as (S1 & S2 & H12).
    apply Forall_app in F. destruct F as [F1 F2].
    split; [constructor; assumption |]. split; [exact S2 |].
    intros a b [<- | Ha] Hb.
    + rewrite Forall_forall in F2. apply F2. exact Hb.
    + apply H12; assumption.
Qed.

End Sorted_lists.

Lemma StronglySorted_rev {A : Type} (R : A -> A -> Prop) (l : list A) :
  StronglySorted R l -> StronglySorted (fun a b => R b a) (rev l).
Proof.
  induction 1 as [| x l S IH F]; simpl.
  - constructor.
  - apply StronglySorted_app.
    + exact IH.
    + constructor; constructor.
    + intros a b Ha [<- | []]. rewrite Forall_forall in F.
      apply F. apply in_rev. exact Ha.
Qed.

Lemma StronglySorted_map {A B : Type} (R : A -> A -> Prop) (f : B -> A) (l : list B) :
  StronglySorted (fun a b => R (f a) (f b)) l -> StronglySorted R (map f l).
Proof.
  induction 1 as [| x l S IH F]; simpl; constructor.
  - exact IH.
  - apply Forall_map. exact F.
Qed.

Lemma sort_created_desc (l : list chatmessage.doc) :
  StronglySorted newer_or_equal (SortCreatedDesc.sort l).
Proof.
  assert (T : RelationClasses.Transitive
                (fun x y : chatmessage.doc => is_true (CreatedDesc.leb x y))).
  { intros x y z Hxy Hyz. unfold is_true, CreatedDesc.leb in *.
    apply Z.leb_le in Hxy. apply Z.leb_le in Hyz. apply Z.leb_le. lia. }
  pose proof (SortCreatedDesc.StronglySorted_sort l T) as S.
  induction S as [| x s S IH F]; constructor.
  - exact IH.
  - apply Forall_forall. intros y Hy. rewrite Forall_forall in F.
    specialize (F y Hy). unfold newer_or_equal. apply Z.leb_le. exact F.
Qed.

(** A message stamped after all the others comes first in the cursor. *)
Lemma sort_newest_first (l : list chatmessage.doc) (x : chatmessage.doc) :
  (forall m, In m l -> (chatmessage.created_at m < chatmessage.created_at x)%Z) ->
  exists tl, SortCreatedDesc.sort (l ++ [x]) = x :: tl.
Proof.
  intros H.
  pose proof (SortCreatedDesc.Permuted_sort (l ++ [x])) as P.
  pose proof (sort_created_desc (l ++ [x])) as S.
  destruct (SortCreatedDesc.sort (l ++ [x])) as [| h tl].
  - apply Permutation_sym, Permutation_nil in P. destruct l; discriminate.
  - exists tl. f_equal.
    assert (Hh : In h (l ++ [x])).
    { apply (Permutation_in h (Permutation_sym P)). left. reflexivity. }
    apply in_app_or in Hh. destruct Hh as [Hh | [Hh | []]]; [| symmetry; exact Hh].
    exfalso. specialize (H h Hh).
    assert (Hx : In x (h :: tl)).
    { apply (Permutation_in x P). apply in_or_app. right. left. reflexivity. }
    destruct Hx as [Hx | Hx].
    + subst h. lia.
    + apply StronglySorted_inv in S. destruct S as [_ F].
      rewrite Forall_forall in F. specialize (F x Hx). unfold newer_or_equal in F. lia.
Qed.

Lemma message_view_same_users (d d' : DB) (m : chatmessage.doc) :
  db_authuser d' = db_authuser d -> message_view d' m = message_view d m.
Proof.
  intros H. unfold message_view. rewrite (find_user_same_users d d' _ H). reflexivity.
Qed.

(** The lookup of [list_messages] returns the first stored user whose
    identifier is the one the text denotes. *)
Lemma find_user_first (d : DB) (x : string) (before after : list authuser.doc)
                      (u : authuser.doc) :
  db_authuser d = (before ++ u :: after)%list ->
  (forall v, In v before -> authuser._id v <> authuser._id u) ->
  ObjectId.parse x = Some (authuser._id u) ->
  find_user d x = Some u.
Proof.
  intros Hd Hb P. unfold find_user. rewrite P.
  assert (V : ObjectId.is_valid x = true).
  { unfold ObjectId.parse in P. destruct (ObjectId.is_valid x); [reflexivity | discriminate]. }
  rewrite V, Hd, find_app.
  assert (N : find (fun v => ObjectId.eqb (authuser._id v) (authuser._id u)) before = None).
  { apply find_none_iff. intros v Hv.
    destruct (ObjectId.eqb (authuser._id v) (authuser._id u)) eqn:E; [| reflexivity].
    apply ObjectId_eqb_eq in E. exfalso. exact (Hb v Hv E). }
  rewrite N. cbn [find]. rewrite ObjectId_eqb_refl. reflexivity.
Qed.

(** With pairwise distinct identifiers, it returns the stored user that has
    the identifier. *)
Lemma find_user_distinct (d : DB) (x : string) (u : authuser.doc) :
  NoDup (map authuser._id (db_authuser d)) ->
  In u (db_authuser d) ->
  ObjectId.parse x = Some (authuser._id u) ->
  find_user d x = Some u.
Proof.
  intros N Hin P. destruct (in_split u (db_authuser d) Hin) as (before & after & Hd).
  apply (find_user_first d x before after u Hd); [| exact P].
  intros v Hv E. rewrite Hd, map_app in N. cbn [map] in N.
  apply NoDup_remove_2 in N. apply N. apply in_or_app. left.
  rewrite <- E. apply in_map. exact Hv.
Qed.

(** C3. On every store, [list_messages] returns min(50, number of stored
    messages) entries.  They are the views of stored messages none of which
    is older than a message left out, in ascending order of creation time.
    Each view carries the identifier, content and creation time of its
    message.  Its [user_name] is the name of the stored user whose [_id] is
    the identifier that the message's [user_id] denotes (the first such user
    in the collection, the only one when identifiers are distinct; in
    particular the user whose [str(_id)] is the [user_id]), and it is
    "Unknown" when no stored user has that identifier or [user_id] is not an
    identifier at all. *)
Theorem list_messages_recent_fifty (d : DB) (user : authuser.doc) :
  exists shown rest,
    list_messages (Some d) user = Return (map (message_view d) shown) /\
    Permutation (shown ++ rest) (db_chatmessage d) /\
    length (map (message_view d) shown) = Nat.min 50 (length (db_chatmessage d)) /\
    StronglySorted
      (fun v w => (ChatMessageResponse.created_at v <= ChatMessageResponse.created_at w)%Z)
      (map (message_view d) shown) /\
    (forall a b, In a shown -> In b rest ->
                 (chatmessage.created_at b <= chatmessage.created_at a)%Z) /\
    (forall m, In m shown ->
       ChatMessageResponse.id (message_view d m) = ObjectId.str (chatmessage._id m) /\
       ChatMessageResponse.content (message_view d m) = chatmessage.content m /\
       ChatMessageResponse.created_at (message_view d m) = chatmessage.created_at m /\
       (forall before u after,
           db_authuser d = (before ++ u :: after)%list ->
           (forall v, In v before -> authuser._id v <> authuser._id u) ->
           ObjectId.parse (chatmessage.user_id m) = Some (authuser._id u) ->
           ChatMessageResponse.user_name (message_view d m) = authuser.name u) /\
       (forall u,
           NoDup (map authuser._id (db_authuser d)) ->
           In u (db_authuser d) ->
           ObjectId.parse (chatmessage.user_id m) = Some (authuser._id u) ->
           ChatMessageResponse.user_name (message_view d m) = authuser.name u) /\
       (forall u,
           NoDup (map authuser._id (db_authuser d)) ->
           In u (db_authuser d) ->
           ObjectId.well_formed (authuser._id u) ->
           chatmessage.user_id m = ObjectId.str (authuser._id u) ->
           ChatMessageResponse.user_name (message_view d m) = authuser.name u) /\
       (forall u, find_user d (chatmessage.user_id m) = Some u ->
                  In u (db_authuser d) /\
                  ObjectId.parse (chatmessage.user_id m) = Some (authuser._id u) /\
                  ChatMessageResponse.user_name (message_view d m) = authuser.name u) /\
       ((forall u, In u (db_authuser d) ->
                   ObjectId.parse (chatmessage.user_id m) <> Some (authuser._id u)) ->
        ChatMessageResponse.user_name (message_view d m) = "Unknown")).
Proof.
  set (sorted := SortCreatedDesc.sort (db_chatmessage d)).
  exists (rev (firstn 50 sorted)), (skipn 50 sorted).
  pose proof (sort_created_desc (db_chatmessage d)) as S. fold sorted in S.
  rewrite <- (firstn_skipn 50 sorted) in S.
  apply StronglySorted_app_inv in S. destruct S as (S1 & _ & S12).
  split; [| split; [| split; [| split; [| split]]]].
  - unfold list_messages, recent_messages. fold sorted. rewrite map_rev. reflexivity.
  - apply Permutation_trans with (firstn 50 sorted ++ skipn 50 sorted)%list.
    + apply Permutation_app_tail. apply Permutation_sym, Permutation_rev.
    + rewrite firstn_skipn. apply Permutation_sym. apply SortCreatedDesc.Permuted_sort.
  - rewrite length_map, length_rev, length_firstn. f_equal.
    apply Permutation_length. apply Permutation_sym. apply SortCreatedDesc.Permuted_sort.
  - apply StronglySorted_map.
    apply (StronglySorted_rev newer_or_equal) in S1. exact S1.
  - intros a b Ha Hb. apply in_rev in Ha. exact (S12 a b Ha Hb).
  - intros m _. split; [reflexivity |]. split; [reflexivity |]. split; [reflexivity |].
    unfold message_view. cbn [ChatMessageResponse.user_name].
    split; [| split; [| split; [| split]]].
    + intros before u after Hd Hb P.
      rewrite (find_user_first d _ before after u Hd Hb P). reflexivity.
    + intros u N Hin P. rewrite (find_user_distinct d _ u N Hin P). reflexivity.
    + intros u N Hin W E.
      rewrite (find_user_distinct d _ u N Hin); [reflexivity |].
      rewrite E. apply parse_str. exact W.
    + intros u F. rewrite F. destruct (find_user_some _ _ _ F) as (Hin & P & _). auto.
    + intros H.
      assert (F : find_user d (chatmessage.user_id m) = None).
      { apply find_user_none.
        destruct (ObjectId.parse (chatmessage.user_id m)) as [oid |] eqn:P.
        - right. exists oid. split; [reflexivity |].
          intros u Hu E. apply (H u Hu). rewrite E. reflexivity.
        - left. reflexivity. }
      rewrite F. reflexivity.
Qed.

(** ** Chat feed: post, then list *)

Lemma ChatMessage_new_ok (user_id content : string) :
  (1 <= String.length content <= 2000)%nat ->
  ChatMessage.new user_id content = Return (ChatMessage.make user_id content None None).
Proof.
  intros [H1 H2]. unfold ChatMessage.new.
  apply Nat.leb_le in H1. apply Nat.leb_le in H2. rewrite H1, H2. reflexivity.
Qed.

Lemma get_user_by_token_find_user (d : DB) (now : datetime) (tok : string)
                                  (user : authuser.doc) :
  get_user_by_token (Some d) now tok = Some user ->
  find_user d (ObjectId.str (authuser._id user)) = Some user.
Proof.
  unfold get_user_by_token. destruct (find_session d now tok) as [sess |]; [| discriminate].
  apply find_user_again.
Qed.

(** C7, as the code has it.  The listing is ordered by the stamps the store
    put on the messages, not by the order of the posts.  An authenticated
    user posts content of valid length; if the store stamps the message
    strictly later than every message it already holds, then the post
    succeeds and the listing that follows ends with the message just posted:
    its content is the posted content and its [user_name] is the name under
    which the poster is stored.  When the generated identifier is new, that
    last entry is the very view the post returned. *)
Theorem post_then_list_last
    (d : DB) (now : datetime) (tok : string) (i : database.inserted)
    (payload : ChatPostRequest.t) (user viewer : authuser.doc) :
  get_user_by_token (Some d) now tok = Some user ->
  (1 <= String.length (ChatPostRequest.content payload) <= 2000)%nat ->
  ObjectId.well_formed (database.new_id i) ->
  all_before d (database.stamp i) = true ->
  exists d' posted earlier last,
    post_message (Some d) i payload user = (Some d', Return posted) /\
    list_messages (Some d') viewer = Return (earlier ++ [last])%list /\
    ChatMessageResponse.user_name last = authuser.name user /\
    ChatMessageResponse.content last = ChatPostRequest.content payload /\
    ChatMessageResponse.id last = ObjectId.str (database.new_id i) /\
    ChatMessageResponse.created_at last = database.stamp i /\
    ChatMessageResponse.id posted = ChatMessageResponse.id last /\
    ChatMessageResponse.user_name posted = authuser.name user /\
    (fresh_message_id d (database.new_id i) = true -> posted = last).
Proof.
  intros Hauth Hlen Hwf Hbefore.
  pose proof (get_user_by_token_find_user d now tok user Hauth) as Hu.
  set (m := chatmessage.make (database.new_id i) (ObjectId.str (authuser._id user))
                             (ChatPostRequest.content payload)
                             (database.stamp i) (database.stamp i)).
  set (d' := mkDB (db_authuser d) (db_session d) (db_chatmessage d ++ [m])).
  set (last := ChatMessageResponse.make (ObjectId.str (database.new_id i))
                 (authuser.name user) (ChatPostRequest.content payload)
                 (database.stamp i)).
  assert (Hview : message_view d' m = last).
  { unfold message_view. cbn [chatmessage.user_id m].
    rewrite (find_user_same_users d d' _ eq_refl), Hu. reflexivity. }
  destruct (sort_newest_first (db_chatmessage d) m) as [tl Hsort].
  { intros x Hx. unfold all_before in Hbefore. rewrite forallb_forall in Hbefore.
    apply Z.ltb_lt. exact (Hbefore x Hx). }
  assert (Hlist : list_messages (Some d') viewer =
                  Return (rev (map (message_view d') (firstn 49 tl)) ++ [last])%list).
  { unfold list_messages, recent_messages. cbn [db_chatmessage d'].
    rewrite Hsort. cbn [firstn map rev]. rewrite Hview. reflexivity. }
  assert (Hfind : exists saved,
             find (fun x => ObjectId.eqb (chatmessage._id x) (database.new_id i))
                  (db_chatmessage d ++ [m]) = Some saved /\
             (fresh_message_id d (database.new_id i) = true -> saved = m)).
  { rewrite find_app.
    destruct (find _ (db_chatmessage d)) as [x |] eqn:F.
    - exists x. split; [reflexivity |]. intros Hfresh.
      apply find_some in F. destruct F as [Hin He].
      unfold fresh_message_id in Hfresh. rewrite forallb_forall in Hfresh.
      specialize (Hfresh x Hin). rewrite He in Hfresh. discriminate.
    - exists m. cbn [find chatmessage._id m]. rewrite ObjectId_eqb_refl. auto. }
  destruct Hfind as (saved & Hsaved & Hfresh).
  exists d'.
  exists (ChatMessageResponse.make (ObjectId.str (database.new_id i)) (authuser.name user)
            (chatmessage.content saved) (chatmessage.created_at saved)).
  exists (rev (map (message_view d') (firstn 49 tl))), last.
  split.
  - unfold post_message. rewrite (ChatMessage_new_ok _ _ Hlen).
    unfold database.create_document_chatmessage.
    cbn [ChatMessage.user_id ChatMessage.content].
    rewrite (parse_str _ Hwf). fold m. cbn [db_chatmessage].
    rewrite Hsaved. reflexivity.
  - split; [exact Hlist |].
    repeat (split; [reflexivity |]).
    intros Hf. rewrite (Hfresh Hf). reflexivity.
Qed.

Lemma post_then_list_last_witness :
  exists d' posted earlier last,
    post_message (Some Sample.with_alice) Sample.hi_inserted (ChatPostRequest.make "hi")
                 Sample.alice = (Some d', Return posted) /\
    list_messages (Some d') Sample.alice = Return (earlier ++ [last])%list /\
    ChatMessageResponse.user_name last = "Alice" /\
    ChatMessageResponse.content last = "hi".
Proof.
  destruct (post_then_list_last Sample.with_alice 3000%Z "tokA" Sample.hi_inserted
              (ChatPostRequest.make "hi") Sample.alice Sample.alice)
    as (d' & posted & earlier & last & H1 & H2 & H3 & H4 & _).
  - reflexivity.
  - simpl. lia.
  - reflexivity.
  - reflexivity.
  - exists d', posted, earlier, last. auto.
Defined.

(** Without the condition on the stamp the posted message need not come
    last.  Alice, authenticated, posts "yo" into the store that holds her
    "hi" stamped 3001; the identifier is new and well formed.  When the
    store stamps "yo" earlier (2500), the listing is "yo", "hi"; with the
    same stamp (3001) the order is the one the cursor returns for equal
    stamps, here again "yo", "hi".  In both the last entry is not the
    posted message. *)
Lemma post_then_list_not_last :
  get_user_by_token (Some Sample.with_hi) 3500%Z "tokA" = Some Sample.alice /\
  fresh_message_id Sample.with_hi (Sample.oid x0f) = true /\
  ObjectId.well_formed (Sample.oid x0f) /\
  posted_is_not_last Sample.with_hi (database.mk_inserted (Sample.oid x0f) 2500%Z)
                     (ChatPostRequest.make "yo") Sample.alice /\
  posted_is_not_last Sample.with_hi (database.mk_inserted (Sample.oid x0f) 3001%Z)
                     (ChatPostRequest.make "yo") Sample.alice.
Proof.
  split; [reflexivity |]. split; [reflexivity |]. split; [reflexivity |].
  assert (L : forall (vs es : list ChatMessageResponse.t) (p : ChatMessageResponse.t),
             vs = (es ++ [p])%list -> last vs p = p).
  { intros vs es p ->. apply last_last. }
  split.
  - unfold posted_is_not_last. eexists. eexists. eexists.
    split; [vm_compute; reflexivity |]. split; [reflexivity |].
    split; [vm_compute; reflexivity |].
    assert (N : last [ChatMessageResponse.make "0f0f0f0f0f0f0f0f0f0f0f0f" "Alice" "yo" 2500%Z;
                      ChatMessageResponse.make "0d0d0d0d0d0d0d0d0d0d0d0d" "Alice" "hi" 3001%Z]
                     (ChatMessageResponse.make "0f0f0f0f0f0f0f0f0f0f0f0f" "Alice" "yo" 2500%Z)
                <> ChatMessageResponse.make "0f0f0f0f0f0f0f0f0f0f0f0f" "Alice" "yo" 2500%Z).
    { cbn [last]. discriminate. }
    split; [exact N |]. intros (es & E). exact (N (L _ es _ E)).
  - unfold posted_is_not_last. eexists. eexists. eexists.
    split; [vm_compute; reflexivity |]. split; [reflexivity |].
    split; [vm_compute; reflexivity |].
    assert (N : last [ChatMessageResponse.make "0f0f0f0f0f0f0f0f0f0f0f0f" "Alice" "yo" 3001%Z;
                      ChatMessageResponse.make "0d0d0d0d0d0d0d0d0d0d0d0d" "Alice" "hi" 3001%Z]
                     (ChatMessageResponse.make "0f0f0f0f0f0f0f0f0f0f0f0f" "Alice" "yo" 3001%Z)
                <> ChatMessageResponse.make "0f0f0f0f0f0f0f0f0f0f0f0f" "Alice" "yo" 3001%Z).
    { cbn [last]. discriminate. }
    split; [exact N |]. intros (es & E). exact (N (L _ es _ E)).
Qed.

(** ** The scenarios of the specification, run on the sample store *)

Example scenario_register_twice :
  snd (register (Some Sample.empty) Sample.alice_env Sample.alice_request) =
    Return (LoginResponse.make "tokA" "Alice" "a@x.com") /\
  snd (register (Some Sample.with_alice) Sample.alice_env
                (RegisterRequest.make "Bob" "a@x.com" "pw2")) =
    Raise (HTTPException 400 "Email already registered").
Proof. split; vm_compute; reflexivity. Qed.

Example scenario_post_and_read :
  match post_chat (Some Sample.with_alice) 3000%Z (Some "Bearer tokA")
                  Sample.hi_inserted (ChatPostRequest.make "hi") with
  | (db', Return posted) =>
      get_chat db' 4000%Z (Some "Bearer tokA") = Return [posted] /\
      ChatMessageResponse.user_name posted = "Alice" /\
      ChatMessageResponse.content posted = "hi"
  | (_, Raise _) => False
  end.
Proof. vm_compute. repeat split; reflexivity. Qed.

Example scenario_wrong_password :
  snd (login (Some Sample.with_alice) Sample.login_env
             (LoginRequest.make "a@x.com" "wrong")) =
    Raise (HTTPException 401 "Invalid credentials").
Proof. vm_compute. reflexivity. Qed.

Example scenario_no_header :
  get_chat (Some Sample.with_alice) 4000%Z None =
    Raise (HTTPException 401 "Missing Authorization header").
Proof. reflexivity. Qed.

Example scenario_fifty_of_fifty_one :
  match list_messages (Some Sample.crowded) Sample.alice with
  | Return views =>
      length views = 50%nat /\
      map ChatMessageResponse.created_at views = map Z.of_nat (seq 2 50) /\
      map ChatMessageResponse.user_name (firstn 3 views) = ["Alice"; "Unknown"; "Alice"]
  | Raise _ => False
  end.
Proof. vm_compute. repeat split; reflexivity. Qed.

(* ================================================================== *)
(** * Further properties of the code *)

(** ** Credential hasher *)

Lemma hexlify_injective (a b : list byte) : Hex.hexlify a = Hex.hexlify b -> a = b.
Proof.
  intros H. pose proof (unhexlify_hexlify a) as Ha. rewrite H, unhexlify_hexlify in Ha.
  injection Ha as Ha. symmetry. exact Ha.
Qed.

(** X1. Against a value [hash_password] produced, [verify_password] accepts
    a candidate exactly when the SHA-256 digest of salt+candidate equals the
    stored digest of salt+password: nothing but the salted digest decides. *)
Theorem verify_password_against_hash (token_bytes : list byte) (password candidate : string) :
  verify_password candidate (hash_password token_bytes password) =
  String.eqb (SHA256.hexdigest (Py.encode (Hex.hexlify token_bytes ++ candidate)))
             (SHA256.hexdigest (Py.encode (Hex.hexlify token_bytes ++ password))).
Proof.
  unfold verify_password, verify_password_try.
  rewrite hash_password_split. reflexivity.
Qed.

(** X2. Two calls of [hash_password] that draw different salts return
    different stored values, whatever the passwords, equal ones included. *)
Theorem hash_password_differs_with_salt
    (bytes1 bytes2 : list byte) (password1 password2 : string) :
  bytes1 <> bytes2 ->
  hash_password bytes1 password1 <> hash_password bytes2 password2.
Proof.
  intros Hne Heq.
  pose proof (hash_password_split bytes1 password1) as S1.
  rewrite Heq, hash_password_split in S1.
  pose proof (f_equal (@hd string EmptyString) S1) as Hs. cbn [hd] in Hs.
  apply Hne. symmetry. apply hexlify_injective. exact Hs.
Qed.

Lemma hash_password_differs_with_salt_witness :
  hash_password (repeat x01 16) "pw1" <> hash_password (repeat x02 16) "pw1".
Proof.
  apply (hash_password_differs_with_salt (repeat x01 16) (repeat x02 16) "pw1" "pw1").
  discriminate.
Defined.

(** ** Login *)

Lemma create_session_doc (d : DB) (e : session_env) (user_id : string) :
  create_session d e user_id =
  (mkDB (db_authuser d) (db_session d ++ [session_doc e user_id]) (db_chatmessage d),
   token_urlsafe e).
Proof. reflexivity. Qed.

Lemma login_eq (d : DB) (e : session_env) (payload : LoginRequest.t) :
  login (Some d) e payload =
  match find_user_by_email d (LoginRequest.email payload) with
  | Some user =>
      if verify_password (LoginRequest.password payload) (authuser.password_hash user)
      then (Some (mkDB (db_authuser d)
                       (db_session d ++
                        [session_doc e (ObjectId.str (authuser._id user))])
                       (db_chatmessage d)),
            Return (LoginResponse.make (token_urlsafe e) (authuser.name user)
                                       (authuser.email user)))
      else (Some d, Raise (HTTPException 401 "Invalid credentials"))
  | None => (Some d, Raise (HTTPException 401 "Invalid credentials"))
  end.
Proof.
  unfold login. destruct (find_user_by_email d (LoginRequest.email payload)) as [u |];
    [| reflexivity].
  destruct (verify_password _ _); reflexivity.
Qed.

(** X3. [login] on a configured store succeeds exactly when the first
    stored user with the given email has a [password_hash] the password
    verifies against.  It then appends one session for that user, expiring
    seven days after the clock reading, touches neither users nor messages,
    and returns the session's token with the stored name and email.  In
    every other case the outcome is 401 "Invalid credentials" and the store
    is unchanged.  Without a store the outcome is 500. *)
Theorem login_outcomes (db : option DB) (e : session_env) (payload : LoginRequest.t) :
  match db with
  | None => login db e payload = (None, Raise (HTTPException 500 "Database not configured"))
  | Some d =>
      ((exists u, find_user_by_email d (LoginRequest.email payload) = Some u /\
                  verify_password (LoginRequest.password payload)
                                  (authuser.password_hash u) = true) <->
       exists r, snd (login db e payload) = Return r) /\
      (forall u,
          find_user_by_email d (LoginRequest.email payload) = Some u ->
          verify_password (LoginRequest.password payload) (authuser.password_hash u) = true ->
          exists s d',
            login db e payload =
            (Some d', Return (LoginResponse.make (session.token s) (authuser.name u)
                                                 (authuser.email u))) /\
            db_authuser d' = db_authuser d /\
            db_session d' = (db_session d ++ [s])%list /\
            db_chatmessage d' = db_chatmessage d /\
            session.user_id s = ObjectId.str (authuser._id u) /\
            session.token s = token_urlsafe e /\
            session.expires_at s = (now e + timedelta_days 7)%Z) /\
      ((forall r, snd (login db e payload) <> Return r) ->
       login db e payload = (Some d, Raise (HTTPException 401 "Invalid credentials")))
  end.
Proof.
  destruct db as [d |]; [| reflexivity].
  rewrite login_eq.
  destruct (find_user_by_email d (LoginRequest.email payload)) as [u |].
  - destruct (verify_password (LoginRequest.password payload) (authuser.password_hash u))
      eqn:V.
    + split; [| split].
      * split; intros _; eexists; [reflexivity | split; [reflexivity | exact V]].
      * intros u0 E _. injection E as <-.
        exists (session_doc e (ObjectId.str (authuser._id u))). eexists.
        split; [reflexivity |].
        cbn [db_authuser db_session db_chatmessage session_doc session.user_id
             session.token session.expires_at].
        repeat split; reflexivity.
      * intros H. exfalso. eapply H. reflexivity.
    + split; [| split].
      * split.
        -- intros (u0 & E & V0). injection E as <-. rewrite V in V0. discriminate.
        -- intros (r & H). discriminate H.
      * intros u0 E V0. injection E as <-. rewrite V in V0. discriminate.
      * reflexivity.
  - split; [| split].
    + split.
      * intros (u0 & E & _). discriminate E.
      * intros (r & H). discriminate H.
    + intros u0 E. discriminate E.
    + reflexivity.
Qed.

Lemma find_user_by_email_registered (d : DB) (e : register_env)
                                    (payload : RegisterRequest.t) :
  find_user_by_email d (RegisterRequest.email payload) = None ->
  find_user_by_email
    (mkDB (db_authuser d ++ [registered_user e payload]) 
          (db_session d ++ [session_doc (session_env_of e)
                              (ObjectId.str (database.new_id (user_inserted e)))])
          (db_chatmessage d))
    (RegisterRequest.email payload) = Some (registered_user e payload).
Proof.
  intros H. unfold find_user_by_email in *. cbn [db_authuser].
  rewrite find_app, H. cbn [find registered_user authuser.email].
  rewrite String.eqb_refl. reflexivity.
Qed.

Lemma register_fresh_docs (d : DB) (e : register_env) (payload : RegisterRequest.t) :
  find_user_by_email d (RegisterRequest.email payload) = None ->
  register (Some d) e payload =
  (Some (mkDB (db_authuser d ++ [registered_user e payload])
              (db_session d ++ [session_doc (session_env_of e)
                                  (ObjectId.str (database.new_id (user_inserted e)))])
              (db_chatmessage d)),
   Return (LoginResponse.make (token_urlsafe (session_env_of e))
             (RegisterRequest.name payload) (RegisterRequest.email payload))).
Proof. apply register_fresh_eq. Qed.

(** X4. Registration followed by login: once [register] has succeeded,
    [login] with the same email and password succeeds on the resulting
    store, whatever token it draws, and returns the registered name and
    email; with a password whose salted digest differs it fails with 401. *)
Theorem register_then_login
    (d : DB) (e : register_env) (payload : RegisterRequest.t) (e' : session_env) :
  ~ email_taken d (RegisterRequest.email payload) ->
  exists d1 r,
    register (Some d) e payload = (Some d1, Return r) /\
    snd (login (Some d1) e'
               (LoginRequest.make (RegisterRequest.email payload)
                                  (RegisterRequest.password payload))) =
      Return (LoginResponse.make (token_urlsafe e') (RegisterRequest.name payload)
                                 (RegisterRequest.email payload)) /\
    forall other,
      verify_password other (hash_password (salt_bytes e)
                                           (RegisterRequest.password payload)) = false ->
      login (Some d1) e' (LoginRequest.make (RegisterRequest.email payload) other) =
        (Some d1, Raise (HTTPException 401 "Invalid credentials")).
Proof.
  intros H. apply find_user_by_email_none in H.
  eexists. eexists. split; [apply (register_fresh_docs d e payload H) |].
  split.
  - rewrite login_eq. cbn [LoginRequest.email LoginRequest.password].
    rewrite (find_user_by_email_registered d e payload H).
    cbn [registered_user authuser.password_hash authuser.name authuser.email].
    rewrite verify_password_accepts_hash. reflexivity.
  - intros other V. rewrite login_eq. cbn [LoginRequest.email LoginRequest.password].
    rewrite (find_user_by_email_registered d e payload H).
    cbn [registered_user authuser.password_hash]. rewrite V. reflexivity.
Qed.

Lemma register_then_login_witness :
  exists d1 r,
    register (Some Sample.empty) Sample.alice_env Sample.alice_request = (Some d1, Return r) /\
    snd (login (Some d1) Sample.login_env (LoginRequest.make "a@x.com" "pw1")) =
      Return (LoginResponse.make "tokB" "Alice" "a@x.com").
Proof.
  destruct (register_then_login Sample.empty Sample.alice_env Sample.alice_request
              Sample.login_env) as (d1 & r & H1 & H2 & _).
  - intros (u & [] & _).
  - exists d1, r. split; [exact H1 | exact H2].
Defined.

(** ** What a request does to the store *)

Lemma post_message_eq (d : DB) (i : database.inserted) (payload : ChatPostRequest.t)
                      (user : authuser.doc) :
  post_message (Some d) i payload user =
  if content_length_ok payload then
    let d' := mkDB (db_authuser d) (db_session d)
                   (db_chatmessage d ++ [message_doc i user payload]) in
    match ObjectId.parse (ObjectId.str (database.new_id i)) with
    | None => (Some d', Raise InvalidId)
    | Some oid =>
        match find (fun m => ObjectId.eqb (chatmessage._id m) oid) (db_chatmessage d') with
        | None => (Some d', Raise AttributeError)
        | Some saved =>
            (Some d',
             Return (ChatMessageResponse.make (ObjectId.str (database.new_id i))
                       (authuser.name user) (chatmessage.content saved)
                       (chatmessage.created_at saved)))
        end
    end
  else (Some d, Raise ValidationError).
Proof.
  unfold post_message, ChatMessage.new, content_length_ok.
  destruct ((1 <=? String.length (ChatPostRequest.content payload))%nat &&
            (String.length (ChatPostRequest.content payload) <=? 2000)%nat); reflexivity.
Qed.

Lemma store_after_register (d : DB) (e : register_env) (payload : RegisterRequest.t) :
  store_after d (PostAuthRegister e payload) =
  match find_user_by_email d (RegisterRequest.email payload) with
  | Some _ => d
  | None =>
      mkDB (db_authuser d ++ [registered_user e payload])
           (db_session d ++ [session_doc (session_env_of e)
                               (ObjectId.str (database.new_id (user_inserted e)))])
           (db_chatmessage d)
  end.
Proof.
  unfold store_after, serve.
  destruct (find_user_by_email d (RegisterRequest.email payload)) as [u |] eqn:F.
  - unfold register. rewrite F. reflexivity.
  - rewrite (register_fresh_docs d e payload F). reflexivity.
Qed.

Lemma store_after_login (d : DB) (e : session_env) (payload : LoginRequest.t) :
  store_after d (PostAuthLogin e payload) =
  match find_user_by_email d (LoginRequest.email payload) with
  | Some user =>
      if verify_password (LoginRequest.password payload) (authuser.password_hash user)
      then mkDB (db_authuser d)
                (db_session d ++ [session_doc e (ObjectId.str (authuser._id user))])
                (db_chatmessage d)
      else d
  | None => d
  end.
Proof.
  unfold store_after, serve. rewrite login_eq.
  destruct (find_user_by_email d (LoginRequest.email payload)) as [u |]; [| reflexivity].
  destruct (verify_password _ _); reflexivity.
Qed.

Lemma store_after_get_chat (d : DB) (now : datetime) (authorization : option string) :
  store_after d (GetChat now authorization) = d.
Proof. reflexivity. Qed.

Lemma store_after_post_chat (d : DB) (now : datetime) (authorization : option string)
                            (i : database.inserted) (payload : ChatPostRequest.t) :
  store_after d (PostChat now authorization i payload) =
  match get_current_user (Some d) now authorization with
  | Return user =>
      if content_length_ok payload
      then mkDB (db_authuser d) (db_session d)
                (db_chatmessage d ++ [message_doc i user payload])
      else d
  | Raise _ => d
  end.
Proof.
  unfold store_after, serve, post_chat.
  destruct (get_current_user (Some d) now authorization) as [user | e]; [| reflexivity].
  rewrite post_message_eq. destruct (content_length_ok payload); [| reflexivity].
  cbv zeta. destruct (ObjectId.parse _); [| reflexivity].
  destruct (find _ _); reflexivity.
Qed.

Lemma store_after_grows (d : DB) (r : request) :
  exists us ss ms,
    db_authuser (store_after d r) = (db_authuser d ++ us)%list /\
    db_session (store_after d r) = (db_session d ++ ss)%list /\
    db_chatmessage (store_after d r) = (db_chatmessage d ++ ms)%list /\
    (length us <= 1)%nat /\ (length ss <= 1)%nat /\ (length ms <= 1)%nat.
Proof.
  assert (Same : exists us ss ms,
             db_authuser d = (db_authuser d ++ us)%list /\
             db_session d = (db_session d ++ ss)%list /\
             db_chatmessage d = (db_chatmessage d ++ ms)%list /\
             (length us <= 1)%nat /\ (length ss <= 1)%nat /\ (length ms <= 1)%nat).
  { exists [], [], []. repeat rewrite app_nil_r. simpl. repeat split; auto. }
  destruct r as [e payload | e payload | t a | t a i payload].
  - rewrite store_after_register.
    destruct (find_user_by_email d (RegisterRequest.email payload)); [exact Same |].
    eexists [_], [_], []. cbn [db_authuser db_session db_chatmessage].
    rewrite app_nil_r. simpl. repeat split; auto.
  - rewrite store_after_login.
    destruct (find_user_by_email d (LoginRequest.email payload)) as [u |]; [| exact Same].
    destruct (verify_password _ _); [| exact Same].
    eexists [], [_], []. cbn [db_authuser db_session db_chatmessage].
    repeat rewrite app_nil_r. simpl. repeat split; auto.
  - rewrite store_after_get_chat. exact Same.
  - rewrite store_after_post_chat.
    destruct (get_current_user (Some d) t a) as [user | e]; [| exact Same].
    destruct (content_length_ok payload); [| exact Same].
    eexists [], [], [_]. cbn [db_authuser db_session db_chatmessage].
    repeat rewrite app_nil_r. simpl. repeat split; auto.
Qed.

(** X5. No request deletes or rewrites a stored document: after any request
    each collection is the one before it followed by at most one new
    document, and [GET /chat] leaves the store as it is.  Sessions, expired
    ones included, and chat messages therefore stay for ever. *)
Theorem requests_only_append (d : DB) (r : request) :
  (exists us ss ms,
      db_authuser (store_after d r) = (db_authuser d ++ us)%list /\
      db_session (store_after d r) = (db_session d ++ ss)%list /\
      db_chatmessage (store_after d r) = (db_chatmessage d ++ ms)%list /\
      (length us <= 1)%nat /\ (length ss <= 1)%nat /\ (length ms <= 1)%nat) /\
  (forall u, In u (db_authuser d) -> In u (db_authuser (store_after d r))) /\
  (forall s, In s (db_session d) -> In s (db_session (store_after d r))) /\
  (forall m, In m (db_chatmessage d) -> In m (db_chatmessage (store_after d r))) /\
  (forall now authorization, r = GetChat now authorization -> store_after d r = d).
Proof.
  destruct (store_after_grows d r) as (us & ss & ms & Hu & Hs & Hm & Lu & Ls & Lm).
  split; [exists us, ss, ms; repeat split; assumption |].
  split; [| split; [| split]].
  - intros u H. rewrite Hu. apply in_or_app. left. exact H.
  - intros s H. rewrite Hs. apply in_or_app. left. exact H.
  - intros m H. rewrite Hm. apply in_or_app. left. exact H.
  - intros t a ->. reflexivity.
Qed.

(** X6. A request answered with an [HTTPException] (400, 401 or 500) has
    changed nothing in the store. *)
Theorem http_error_changes_nothing
    (db : option DB) (r : request) (status_code : nat) (detail : string) :
  snd (serve db r) = Raise (HTTPException status_code detail) ->
  fst (serve db r) = db.
Proof.
  destruct r as [e payload | e payload | t a | t a i payload]; unfold serve.
  - destruct db as [d |]; [| reflexivity]. unfold register.
    destruct (find_user_by_email d (RegisterRequest.email payload)); [reflexivity |].
    cbn [database.create_document_authuser]. rewrite create_session_doc.
    cbn [snd map_result]. intros H. discriminate H.
  - destruct db as [d |]; [| reflexivity]. rewrite login_eq.
    destruct (find_user_by_email d (LoginRequest.email payload)) as [u |]; [| reflexivity].
    destruct (verify_password _ _); [| reflexivity].
    cbn [snd map_result]. intros H. discriminate H.
  - reflexivity.
  - unfold post_chat. destruct (get_current_user db t a) as [user | e0]; [| reflexivity].
    destruct db as [d |]; [| reflexivity].
    rewrite post_message_eq. destruct (content_length_ok payload).
    + cbv zeta. destruct (ObjectId.parse _).
      * destruct (find _ _); cbn [snd map_result]; intros H; discriminate H.
      * cbn [snd map_result]. intros H. discriminate H.
    + cbn [snd map_result]. intros H. discriminate H.
Qed.

Lemma http_error_changes_nothing_witness :
  fst (serve (Some Sample.with_alice)
             (PostAuthRegister Sample.alice_env
                               (RegisterRequest.make "Bob" "a@x.com" "pw2"))) =
  Some Sample.with_alice.
Proof.
  apply (http_error_changes_nothing (Some Sample.with_alice)
           (PostAuthRegister Sample.alice_env (RegisterRequest.make "Bob" "a@x.com" "pw2"))
           400 "Email already registered").
  reflexivity.
Defined.

(** ** Sessions over time *)

Lemma find_grows {A : Type} (f : A -> bool) (l more : list A) (x : A) :
  find f l = Some x -> find f (l ++ more) = Some x.
Proof. intros H. rewrite find_app, H. reflexivity. Qed.

Lemma find_user_grows (d d' : DB) (us : list authuser.doc) (x : string)
                      (u : authuser.doc) :
  db_authuser d' = (db_authuser d ++ us)%list ->
  find_user d x = Some u -> find_user d' x = Some u.
Proof.
  intros H. unfold find_user. rewrite H.
  destruct (ObjectId.is_valid x); [| discriminate].
  destruct (ObjectId.parse x); [| discriminate].
  apply find_grows.
Qed.

Lemma get_user_by_token_grows (d d' : DB) (us : list authuser.doc) (ss : list session.doc)
                              (t : datetime) (tok : string) (u : authuser.doc) :
  db_authuser d' = (db_authuser d ++ us)%list ->
  db_session d' = (db_session d ++ ss)%list ->
  get_user_by_token (Some d) t tok = Some u ->
  get_user_by_token (Some d') t tok = Some u.
Proof.
  intros Hu Hs. unfold get_user_by_token, find_session. rewrite Hs.
  destruct (find _ (db_session d)) as [sess |] eqn:F; [| discriminate].
  rewrite (find_grows _ _ ss _ F). apply (find_user_grows d d' us _ u Hu).
Qed.

(** X7. Nothing revokes a session: a token that resolves to a user at some
    time still resolves to the same user at that time after any further
    request, a new login of the same user included. *)
Theorem requests_keep_sessions
    (d : DB) (r : request) (t : datetime) (tok : string) (u : authuser.doc) :
  get_user_by_token (Some d) t tok = Some u ->
  get_user_by_token (Some (store_after d r)) t tok = Some u /\
  get_current_user (Some (store_after d r)) t (Some ("Bearer " ++ tok)) = Return u.
Proof.
  intros H.
  destruct (store_after_grows d r) as (us & ss & ms & Hu & Hs & _).
  pose proof (get_user_by_token_grows d (store_after d r) us ss t tok u Hu Hs H) as G.
  split; [exact G |].
  pose proof (get_current_user_bearer (Some (store_after d r)) t "Bearer" tok eq_refl) as B.
  rewrite G in B. exact B.
Qed.

Lemma requests_keep_sessions_witness :
  get_user_by_token
    (Some (store_after Sample.with_alice
             (PostAuthLogin Sample.login_env (LoginRequest.make "a@x.com" "pw1"))))
    3000%Z "tokA" = Some Sample.alice.
Proof.
  apply (requests_keep_sessions Sample.with_alice
           (PostAuthLogin Sample.login_env (LoginRequest.make "a@x.com" "pw1"))
           3000%Z "tokA" Sample.alice).
  reflexivity.
Defined.

Lemma expires_at_le_latest (d : DB) (s : session.doc) :
  In s (db_session d) -> (session.expires_at s <= latest_expiry d)%Z.
Proof.
  unfold latest_expiry. induction (db_session d) as [| x l IH]; simpl; intros H.
  - contradiction.
  - destruct H as [<- | H].
    + apply Z.le_max_l.
    + specialize (IH H). lia.
Qed.

(** X8. Sessions are never renewed: from the latest [expires_at] of the
    stored sessions on, no token resolves and no header authenticates, until
    a new session is created. *)
Theorem no_session_outlives_latest_expiry (d : DB) (t : datetime) :
  (latest_expiry d <= t)%Z ->
  (forall tok, get_user_by_token (Some d) t tok = None) /\
  (forall authorization u, get_current_user (Some d) t authorization <> Return u).
Proof.
  intros H.
  assert (G : forall tok, get_user_by_token (Some d) t tok = None).
  { intros tok. apply get_user_by_token_no_session. intros d0 E. injection E as <-.
    unfold find_session. apply find_none_iff. intros s Hs.
    pose proof (expires_at_le_latest d s Hs) as L.
    destruct (Z.ltb_spec t (session.expires_at s)) as [C | C]; [lia |].
    apply andb_false_r. }
  split; [exact G |].
  intros [[| c a] |] u; try (intros E; discriminate E).
  destruct (Py.startswith (Py.lower (String c a)) "bearer ") eqn:P.
  - destruct (bearer_header_shape _ P) as (scheme & Ha & Hl & _).
    rewrite Ha at 1. rewrite (get_current_user_bearer (Some d) t scheme _ Hl), G.
    intros E. discriminate E.
  - unfold get_current_user. cbn [Py.truthy negb]. rewrite P. cbn [negb].
    intros E. discriminate E.
Qed.

Lemma no_session_outlives_latest_expiry_witness :
  get_user_by_token (Some Sample.with_alice) (1001 + timedelta_days 7)%Z "tokA" = None.
Proof.
  apply (no_session_outlives_latest_expiry Sample.with_alice (1001 + timedelta_days 7)%Z).
  vm_compute. discriminate.
Defined.

(** ** The dependency [get_current_user] *)

Lemma get_current_user_cases (db : option DB) (now : datetime)
                             (authorization : option string) :
  get_current_user db now authorization =
    Raise (HTTPException 401 "Missing Authorization header") \/
  get_current_user db now authorization =
    Raise (HTTPException 401 "Invalid Authorization header") \/
  exists scheme tok,
    authorization = Some (scheme ++ String " " tok) /\
    Py.lower scheme = "bearer" /\
    get_current_user db now authorization =
    match get_user_by_token db now tok with
    | Some user => Return user
    | None => Raise (HTTPException 401 "Invalid or expired token")
    end.
Proof.
  destruct authorization as [[| c a] |]; try (left; reflexivity).
  destruct (Py.startswith (Py.lower (String c a)) "bearer ") eqn:P.
  - right. right. destruct (bearer_header_shape _ P) as (scheme & Ha & Hl & _).
    exists scheme, (Py.drop 7 (String c a)). split; [f_equal; exact Ha |].
    split; [exact Hl |].
    rewrite Ha at 1. apply get_current_user_bearer. exact Hl.
  - right. left. unfold get_current_user. cbn [Py.truthy negb]. rewrite P. reflexivity.
Qed.

(** X9. Whatever the header, [get_current_user] either returns a user or
    raises an [HTTPException] with status 401: indexing the split header
    with [1] never raises [IndexError].  When it raises, [GET /chat] and
    [POST /chat] raise the same exception and the store is left as it is. *)
Theorem get_current_user_raises_only_401
    (db : option DB) (now : datetime) (authorization : option string) :
  match get_current_user db now authorization with
  | Return _ => True
  | Raise e =>
      (exists detail, e = HTTPException 401 detail) /\
      get_chat db now authorization = Raise e /\
      forall i payload, post_chat db now authorization i payload = (db, Raise e)
  end.
Proof.
  assert (G : forall e, get_current_user db now authorization = Raise e ->
                        get_chat db now authorization = Raise e /\
                        forall i payload,
                          post_chat db now authorization i payload = (db, Raise e)).
  { intros e E. unfold get_chat, post_chat. rewrite E. split; reflexivity. }
  destruct (get_current_user_cases db now authorization)
    as [E | [E | (scheme & tok & _ & _ & E)]].
  - rewrite E. split; [eexists; reflexivity | exact (G _ E)].
  - rewrite E. split; [eexists; reflexivity | exact (G _ E)].
  - destruct (get_user_by_token db now tok) as [u |].
    + rewrite E. exact I.
    + rewrite E. split; [eexists; reflexivity | exact (G _ E)].
Qed.

Lemma get_user_by_token_sound (db : option DB) (now : datetime) (tok : string)
                              (u : authuser.doc) :
  get_user_by_token db now tok = Some u ->
  exists d s,
    db = Some d /\ In s (db_session d) /\ session.token s = tok /\
    (now < session.expires_at s)%Z /\
    find_user d (session.user_id s) = Some u.
Proof.
  unfold get_user_by_token. destruct db as [d |]; [| discriminate].
  unfold find_session.
  destruct (find _ (db_session d)) as [s |] eqn:F; [| discriminate].
  intros H. apply find_some in F. destruct F as [Hin Hp].
  apply andb_true_iff in Hp. destruct Hp as [Ht He].
  exists d, s. split; [reflexivity |]. split; [exact Hin |].
  split; [apply String.eqb_eq; exact Ht |]. split; [apply Z.ltb_lt; exact He | exact H].
Qed.

(** X10. [get_current_user] authenticates nobody without a stored,
    unexpired session: when it returns a user, the store is configured, the
    header is a casing of "bearer", one space and a token, some stored
    session carries that token and expires strictly later than the clock
    reading, its [user_id] is the text of the identifier of the user
    returned, and that user is stored. *)
Theorem get_current_user_sound
    (db : option DB) (now : datetime) (authorization : option string)
    (u : authuser.doc) :
  get_current_user db now authorization = Return u ->
  exists d scheme tok s,
    db = Some d /\
    authorization = Some (scheme ++ " " ++ tok) /\
    Py.lower scheme = "bearer" /\
    In s (db_session d) /\ session.token s = tok /\
    (now < session.expires_at s)%Z /\
    ObjectId.parse (session.user_id s) = Some (authuser._id u) /\
    In u (db_authuser d).
Proof.
  intros H.
  destruct (get_current_user_cases db now authorization)
    as [E | [E | (scheme & tok & Ha & Hl & E)]];
    rewrite E in H; try discriminate H.
  destruct (get_user_by_token db now tok) as [u0 |] eqn:G; [| discriminate H].
  injection H as <-.
  destruct (get_user_by_token_sound db now tok u0 G) as (d & s & Hd & Hin & Ht & He & Hf).
  destruct (find_user_some d _ u0 Hf) as (Hu & Hp & _).
  exists d, scheme, tok, s. rewrite append_cons. auto 10.
Qed.

Lemma get_current_user_sound_witness :
  exists d scheme tok s,
    Some Sample.with_alice = Some d /\
    Some "Bearer tokA" = Some (scheme ++ " " ++ tok) /\
    Py.lower scheme = "bearer" /\
    In s (db_session d) /\ session.token s = tok /\
    (3000 < session.expires_at s)%Z /\
    ObjectId.parse (session.user_id s) = Some (authuser._id Sample.alice) /\
    In Sample.alice (db_authuser d).
Proof.
  apply (get_current_user_sound (Some Sample.with_alice) 3000%Z (Some "Bearer tokA")
           Sample.alice).
  reflexivity.
Defined.

Lemma get_current_user_find_user (d : DB) (now : datetime) (authorization : option string)
                                 (u : authuser.doc) :
  get_current_user (Some d) now authorization = Return u ->
  find_user d (ObjectId.str (authuser._id u)) = Some u.
Proof.
  intros H.
  destruct (get_current_user_cases (Some d) now authorization)
    as [E | [E | (scheme & tok & Ha & Hl & E)]];
    rewrite E in H; try discriminate H.
  destruct (get_user_by_token (Some d) now tok) as [u0 |] eqn:G; [| discriminate H].
  injection H as <-. exact (get_user_by_token_find_user d now tok u0 G).
Qed.

(** ** Posting *)

(** X11. With content of 1 to 2000 characters and a generated identifier of
    twelve bytes, [post_message] on a configured store appends exactly one
    message, owned by the posting user and carrying the posted content and
    the stamp of the insertion, leaves users and sessions alone, and returns
    a view with the new identifier and the user's name.  When no stored
    message has the generated identifier, the view also carries the posted
    content and the stamp. *)
Theorem post_message_stores_one_message
    (d : DB) (i : database.inserted) (payload : ChatPostRequest.t) (user : authuser.doc) :
  (1 <= String.length (ChatPostRequest.content payload) <= 2000)%nat ->
  ObjectId.well_formed (database.new_id i) ->
  exists view,
    post_message (Some d) i payload user =
    (Some (mkDB (db_authuser d) (db_session d)
                (db_chatmessage d ++ [message_doc i user payload])),
     Return view) /\
    ChatMessageResponse.id view = ObjectId.str (database.new_id i) /\
    ChatMessageResponse.user_name view = authuser.name user /\
    (fresh_message_id d (database.new_id i) = true ->
     ChatMessageResponse.content view = ChatPostRequest.content payload /\
     ChatMessageResponse.created_at view = database.stamp i).
Proof.
  intros [L1 L2] W. rewrite post_message_eq.
  unfold content_length_ok. apply Nat.leb_le in L1. apply Nat.leb_le in L2.
  rewrite L1, L2. cbn [andb]. cbv zeta. rewrite (parse_str _ W).
  cbn [db_chatmessage]. rewrite find_app.
  destruct (find _ (db_chatmessage d)) as [x |] eqn:F.
  - eexists. split; [reflexivity |]. split; [reflexivity |]. split; [reflexivity |].
    intros Hf. exfalso. apply find_some in F. destruct F as [Hin He].
    unfold fresh_message_id in Hf. rewrite forallb_forall in Hf.
    specialize (Hf x Hin). rewrite He in Hf. discriminate Hf.
  - cbn [find message_doc chatmessage._id]. rewrite ObjectId_eqb_refl.
    eexists. split; [reflexivity |]. repeat split; reflexivity.
Qed.

Lemma post_message_stores_one_message_witness :
  exists view,
    post_message (Some Sample.with_alice) Sample.hi_inserted (ChatPostRequest.make "hi")
                 Sample.alice =
    (Some (mkDB (db_authuser Sample.with_alice) (db_session Sample.with_alice)
                (db_chatmessage Sample.with_alice ++
                 [message_doc Sample.hi_inserted Sample.alice (ChatPostRequest.make "hi")])),
     Return view) /\
    ChatMessageResponse.id view = "0d0d0d0d0d0d0d0d0d0d0d0d".
Proof.
  destruct (post_message_stores_one_message Sample.with_alice Sample.hi_inserted
              (ChatPostRequest.make "hi") Sample.alice) as (view & H1 & H2 & _).
  - simpl. lia.
  - reflexivity.
  - exists view. split; [exact H1 | exact H2].
Defined.

(** ** From a response to the next request *)

Lemma find_user_new (us : list authuser.doc) (ss : list session.doc)
                    (ms : list chatmessage.doc) (u : authuser.doc) :
  ObjectId.well_formed (authuser._id u) ->
  forallb (fun v => negb (ObjectId.eqb (authuser._id v) (authuser._id u))) us = true ->
  find_user (mkDB (us ++ [u]) ss ms) (ObjectId.str (authuser._id u)) = Some u.
Proof.
  intros W F. rewrite (find_user_str _ _ W). cbn [db_authuser]. rewrite find_app.
  assert (N : find (fun v => ObjectId.eqb (authuser._id v) (authuser._id u)) us = None).
  { apply find_none_iff. intros v Hv. rewrite forallb_forall in F.
    apply negb_true_iff. exact (F v Hv). }
  rewrite N. cbn [find]. rewrite ObjectId_eqb_refl. reflexivity.
Qed.

Lemma generated_id_ok_register (d : DB) (e : register_env) (payload : RegisterRequest.t) :
  generated_id_ok d (PostAuthRegister e payload) = true ->
  ObjectId.well_formed (authuser._id (registered_user e payload)) /\
  forallb (fun v => negb (ObjectId.eqb (authuser._id v)
                                       (authuser._id (registered_user e payload))))
          (db_authuser d) = true.
Proof.
  unfold generated_id_ok. intros H. apply andb_true_iff in H. destruct H as [L F].
  split; [apply Nat.eqb_eq; exact L | exact F].
Qed.

Lemma new_session_resolves (d : DB) (us : list authuser.doc) (ms : list chatmessage.doc)
                           (e : session_env) (user_id : string) (T : datetime) :
  fresh_token d (token_urlsafe e) = true ->
  find_session (mkDB us (db_session d ++ [session_doc e user_id]) ms) T (token_urlsafe e) =
  if (T <? now e + timedelta_days 7)%Z then Some (session_doc e user_id) else None.
Proof.
  intros F. pose proof (fresh_token_find d (token_urlsafe e) T F) as N.
  unfold find_session in *. cbn [db_session]. rewrite find_app, N.
  cbn [find session_doc session.token session.expires_at].
  rewrite String.eqb_refl. cbn [andb].
  destruct (T <? now e + timedelta_days 7)%Z; reflexivity.
Qed.

Lemma bearer_new_session (d : DB) (us : list authuser.doc) (ms : list chatmessage.doc)
                         (e : session_env) (u : authuser.doc) (T : datetime) :
  fresh_token d (token_urlsafe e) = true ->
  find_user (mkDB us (db_session d ++ [session_doc e (ObjectId.str (authuser._id u))]) ms)
            (ObjectId.str (authuser._id u)) = Some u ->
  get_current_user
    (Some (mkDB us (db_session d ++ [session_doc e (ObjectId.str (authuser._id u))]) ms))
    T (Some ("Bearer " ++ token_urlsafe e)) =
  if (T <? now e + timedelta_days 7)%Z then Return u
  else Raise (HTTPException 401 "Invalid or expired token").
Proof.
  intros F U.
  pose proof (get_current_user_bearer
                (Some (mkDB us (db_session d ++
                                [session_doc e (ObjectId.str (authuser._id u))]) ms))
                T "Bearer" (token_urlsafe e) eq_refl) as B.
  unfold get_user_by_token in B. rewrite (new_session_resolves d us ms e _ T F) in B.
  destruct (T <? now e + timedelta_days 7)%Z.
  - cbn [session_doc session.user_id] in B. rewrite U in B. exact B.
  - exact B.
Qed.

(** X12. The token [register] returns is a working credential: when the
    generated user identifier is new and twelve bytes long and no stored
    session carries the drawn token, the header "Bearer <token>" makes
    [get_current_user] return the user just registered at every time
    strictly before the session's clock reading plus seven days, and raise
    401 "Invalid or expired token" from then on. *)
Theorem register_then_authenticate
    (d : DB) (e : register_env) (payload : RegisterRequest.t) :
  ~ email_taken d (RegisterRequest.email payload) ->
  generated_id_ok d (PostAuthRegister e payload) = true ->
  fresh_token d (token_urlsafe (session_env_of e)) = true ->
  exists d1 r,
    register (Some d) e payload = (Some d1, Return r) /\
    In (registered_user e payload) (db_authuser d1) /\
    forall T,
      get_current_user (Some d1) T (Some ("Bearer " ++ LoginResponse.token r)) =
      if (T <? now (session_env_of e) + timedelta_days 7)%Z
      then Return (registered_user e payload)
      else Raise (HTTPException 401 "Invalid or expired token").
Proof.
  intros He Hid Hf. apply find_user_by_email_none in He.
  destruct (generated_id_ok_register d e payload Hid) as [W Fr].
  eexists. eexists. split; [apply (register_fresh_docs d e payload He) |].
  split.
  - cbn [db_authuser]. apply in_or_app. right. left. reflexivity.
  - intros T. cbn [LoginResponse.token].
    apply (bearer_new_session d _ _ (session_env_of e) (registered_user e payload) T Hf).
    apply find_user_new; assumption.
Qed.

Lemma register_then_authenticate_witness :
  exists d1 r,
    register (Some Sample.empty) Sample.alice_env Sample.alice_request = (Some d1, Return r) /\
    get_current_user (Some d1) 3000%Z (Some ("Bearer " ++ LoginResponse.token r)) =
      Return (registered_user Sample.alice_env Sample.alice_request).
Proof.
  destruct (register_then_authenticate Sample.empty Sample.alice_env Sample.alice_request)
    as (d1 & r & H1 & _ & H2).
  - intros (u & [] & _).
  - reflexivity.
  - reflexivity.
  - exists d1, r. split; [exact H1 |]. rewrite (H2 3000%Z). reflexivity.
Defined.

(** ** Stores the application can build *)

Lemma owned_grows (d d' : DB) (us : list authuser.doc) (x : string) :
  db_authuser d' = (db_authuser d ++ us)%list ->
  (exists u, find_user d x = Some u) -> exists u, find_user d' x = Some u.
Proof.
  intros H (u & F). exists u. exact (find_user_grows d d' us x u H F).
Qed.

Lemma invariant_same_users (d d' : DB) :
  db_authuser d' = db_authuser d ->
  users_indexed d -> emails_indexed d ->
  users_indexed d' /\ emails_indexed d'.
Proof.
  intros H U E. split.
  - intros u Hu. rewrite H in Hu. rewrite (find_user_same_users d d' _ H). exact (U u Hu).
  - intros u Hu. rewrite H in Hu. unfold find_user_by_email. rewrite H. exact (E u Hu).
Qed.

Lemma store_invariant_step (d : DB) (r : request) :
  store_invariant d -> generated_id_ok d r = true -> store_invariant (store_after d r).
Proof.
  intros (U & E & S & M) G.
  destruct r as [e payload | e payload | t a | t a i payload].
  - rewrite store_after_register.
    destruct (find_user_by_email d (RegisterRequest.email payload)) as [u0 |] eqn:F.
    { repeat split; assumption. }
    destruct (generated_id_ok_register d e payload G) as [W Fr].
    set (u := registered_user e payload) in *.
    set (s := session_doc (session_env_of e)
                          (ObjectId.str (database.new_id (user_inserted e)))).
    set (d' := mkDB (db_authuser d ++ [u]) (db_session d ++ [s]) (db_chatmessage d)).
    assert (Hnew : find_user d' (ObjectId.str (authuser._id u)) = Some u).
    { apply find_user_new; assumption. }
    assert (Hg : db_authuser d' = (db_authuser d ++ [u])%list) by reflexivity.
    split; [| split; [| split]].
    + intros v Hv. cbn [db_authuser d'] in Hv. apply in_app_or in Hv.
      destruct Hv as [Hv | [<- | []]]; [| exact Hnew].
      exact (find_user_grows d d' [u] _ v Hg (U v Hv)).
    + intros v Hv. cbn [db_authuser d'] in Hv. apply in_app_or in Hv.
      unfold find_user_by_email. cbn [db_authuser d'].
      destruct Hv as [Hv | [<- | []]].
      * apply find_grows. exact (E v Hv).
      * rewrite find_app. unfold find_user_by_email in F.
        change (authuser.email u) with (RegisterRequest.email payload).
        rewrite F. cbn [find]. 
        change (authuser.email u) with (RegisterRequest.email payload).
        rewrite String.eqb_refl. reflexivity.
    + intros x Hx. cbn [db_session d'] in Hx. apply in_app_or in Hx.
      destruct Hx as [Hx | [<- | []]].
      * exact (owned_grows d d' [u] _ Hg (S x Hx)).
      * exists u. exact Hnew.
    + intros m Hm. exact (owned_grows d d' [u] _ Hg (M m Hm)).
  - rewrite store_after_login.
    destruct (find_user_by_email d (LoginRequest.email payload)) as [u |] eqn:F;
      [| repeat split; assumption].
    destruct (verify_password _ _); [| repeat split; assumption].
    set (d' := mkDB (db_authuser d)
                    (db_session d ++ [session_doc e (ObjectId.str (authuser._id u))])
                    (db_chatmessage d)).
    assert (Hsame : db_authuser d' = db_authuser d) by reflexivity.
    destruct (invariant_same_users d d' Hsame U E) as [U' E'].
    split; [exact U' |]. split; [exact E' |]. split.
    + intros x Hx. cbn [db_session d'] in Hx. apply in_app_or in Hx.
      destruct Hx as [Hx | [<- | []]].
      * destruct (S x Hx) as (v & Hv). exists v.
        rewrite (find_user_same_users d d' _ Hsame). exact Hv.
      * exists u. cbn [session_doc session.user_id].
        rewrite (find_user_same_users d d' _ Hsame).
        apply U. unfold find_user_by_email in F. apply find_some in F. apply F.
    + intros m Hm. destruct (M m Hm) as (v & Hv). exists v.
      rewrite (find_user_same_users d d' _ Hsame). exact Hv.
  - rewrite store_after_get_chat. repeat split; assumption.
  - rewrite store_after_post_chat.
    destruct (get_current_user (Some d) t a) as [user | e0] eqn:A;
      [| repeat split; assumption].
    destruct (content_length_ok payload); [| repeat split; assumption].
    set (d' := mkDB (db_authuser d) (db_session d)
                    (db_chatmessage d ++ [message_doc i user payload])).
    assert (Hsame : db_authuser d' = db_authuser d) by reflexivity.
    destruct (invariant_same_users d d' Hsame U E) as [U' E'].
    split; [exact U' |]. split; [exact E' |]. split.
    + intros x Hx. destruct (S x Hx) as (v & Hv). exists v.
      rewrite (find_user_same_users d d' _ Hsame). exact Hv.
    + intros m Hm. cbn [db_chatmessage d'] in Hm. apply in_app_or in Hm.
      destruct Hm as [Hm | [<- | []]].
      * destruct (M m Hm) as (v & Hv). exists v.
        rewrite (find_user_same_users d d' _ Hsame). exact Hv.
      * exists user. cbn [message_doc chatmessage.user_id].
        rewrite (find_user_same_users d d' _ Hsame).
        exact (get_current_user_find_user d t a user A).
Qed.

Lemma reachable_store_invariant (d : DB) : reachable d -> store_invariant d.
Proof.
  induction 1 as [| d r R IH G].
  - repeat split; intros x [].
  - exact (store_invariant_step d r IH G).
Qed.

Lemma NoDup_snoc {A : Type} (l : list A) (x : A) :
  NoDup l -> ~ In x l -> NoDup (l ++ [x]).
Proof.
  induction 1 as [| a l Ha N IH]; simpl; intros Hx.
  - constructor; [intros [] | constructor].
  - constructor.
    + intros Hin. apply in_app_or in Hin. destruct Hin as [Hin | [<- | []]].
      * exact (Ha Hin).
      * apply Hx. left. reflexivity.
    + apply IH. intros Hin. apply Hx. right. exact Hin.
Qed.

Lemma users_distinct_step (d : DB) (r : request) :
  users_distinct d -> generated_id_ok d r = true -> users_distinct (store_after d r).
Proof.
  intros (NE & NI & W) G.
  destruct r as [e payload | e payload | t a | t a i payload].
  - rewrite store_after_register.
    destruct (find_user_by_email d (RegisterRequest.email payload)) as [u0 |] eqn:F.
    { repeat split; assumption. }
    destruct (generated_id_ok_register d e payload G) as [Wn Fr].
    unfold users_distinct. cbn [db_authuser]. repeat rewrite map_app. cbn [map].
    split; [| split].
    + apply NoDup_snoc; [exact NE |]. intros Hin.
      apply in_map_iff in Hin. destruct Hin as (v & Ev & Hv).
      unfold find_user_by_email in F. rewrite find_none_iff in F.
      specialize (F v Hv). apply String.eqb_neq in F. exact (F Ev).
    + apply NoDup_snoc; [exact NI |]. intros Hin.
      apply in_map_iff in Hin. destruct Hin as (v & Ev & Hv).
      rewrite forallb_forall in Fr. specialize (Fr v Hv).
      rewrite Ev, ObjectId_eqb_refl in Fr. discriminate Fr.
    + apply Forall_app. split; [exact W |]. constructor; [exact Wn | constructor].
  - rewrite store_after_login.
    destruct (find_user_by_email d (LoginRequest.email payload)) as [u |];
      [| repeat split; assumption].
    destruct (verify_password _ _); repeat split; assumption.
  - rewrite store_after_get_chat. repeat split; assumption.
  - rewrite store_after_post_chat.
    destruct (get_current_user (Some d) t a) as [user | e0]; [| repeat split; assumption].
    destruct (content_length_ok payload); repeat split; assumption.
Qed.

Lemma reachable_users_distinct (d : DB) : reachable d -> users_distinct d.
Proof.
  induction 1 as [| d r R IH G].
  - repeat split; constructor.
  - exact (users_distinct_step d r IH G).
Qed.

(** X13. In every store the application builds from the empty store, as
    long as the store generates twelve-byte user identifiers it has not
    used: no two users share an email or an identifier; every user is the
    one [find_one] returns for its own identifier and for its own email;
    every session and every chat message refers to a stored user. *)
Theorem reachable_store_is_consistent (d : DB) :
  reachable d ->
  NoDup (map authuser.email (db_authuser d)) /\
  NoDup (map authuser._id (db_authuser d)) /\
  (forall u, In u (db_authuser d) ->
             ObjectId.well_formed (authuser._id u) /\
             find_user d (ObjectId.str (authuser._id u)) = Some u /\
             find_user_by_email d (authuser.email u) = Some u) /\
  (forall s, In s (db_session d) ->
             exists u, In u (db_authuser d) /\
                       ObjectId.parse (session.user_id s) = Some (authuser._id u)) /\
  (forall m, In m (db_chatmessage d) ->
             exists u, In u (db_authuser d) /\
                       ObjectId.parse (chatmessage.user_id m) = Some (authuser._id u)).
Proof.
  intros R.
  destruct (reachable_users_distinct d R) as (NE & NI & W).
  destruct (reachable_store_invariant d R) as (U & E & S & M).
  split; [exact NE |]. split; [exact NI |]. split; [| split].
  - intros u Hu. rewrite Forall_forall in W. auto.
  - intros s Hs. destruct (S s Hs) as (u & F). exists u.
    destruct (find_user_some d _ u F) as (Hin & P & _). auto.
  - intros m Hm. destruct (M m Hm) as (u & F). exists u.
    destruct (find_user_some d _ u F) as (Hin & P & _). auto.
Qed.

Lemma reachable_with_alice : reachable Sample.with_alice.
Proof.
  exact (reachable_step (mkDB [] [] [])
           (PostAuthRegister Sample.alice_env Sample.alice_request)
           reachable_empty eq_refl).
Qed.

Lemma reachable_store_is_consistent_witness :
  NoDup (map authuser.email (db_authuser Sample.with_alice)) /\
  forall s, In s (db_session Sample.with_alice) ->
            exists u, In u (db_authuser Sample.with_alice) /\
                      ObjectId.parse (session.user_id s) = Some (authuser._id u).
Proof.
  destruct (reachable_store_is_consistent Sample.with_alice reachable_with_alice)
    as (NE & _ & _ & S & _).
  split; [exact NE | exact S].
Defined.

(** ** What follows in such stores *)

Lemma in_recent_messages (d : DB) (m : chatmessage.doc) :
  In m (recent_messages d) -> In m (db_chatmessage d).
Proof.
  unfold recent_messages. intros H.
  apply (Permutation_in m (Permutation_sym (SortCreatedDesc.Permuted_sort _))).
  rewrite <- (firstn_skipn 50). apply in_or_app. left. exact H.
Qed.

(** X14. In a store the application built, the fallback "Unknown" of
    [list_messages] is never taken: every listed entry is the view of a
    stored message whose [user_id] is found among the users, and its
    [user_name] is that user's name. *)
Theorem reachable_listing_names_users
    (d : DB) (viewer : authuser.doc) (views : list ChatMessageResponse.t) :
  reachable d ->
  list_messages (Some d) viewer = Return views ->
  forall v, In v views ->
    exists m u,
      In m (db_chatmessage d) /\ In u (db_authuser d) /\
      find_user d (chatmessage.user_id m) = Some u /\
      ChatMessageResponse.user_name v = authuser.name u /\
      ChatMessageResponse.content v = chatmessage.content m /\
      ChatMessageResponse.id v = ObjectId.str (chatmessage._id m).
Proof.
  intros R L v Hv. unfold list_messages in L. injection L as <-.
  apply in_rev in Hv. apply in_map_iff in Hv. destruct Hv as (m & <- & Hm).
  apply in_recent_messages in Hm.
  destruct (reachable_store_invariant d R) as (_ & _ & _ & M).
  destruct (M m Hm) as (u & F). exists m, u.
  destruct (find_user_some d _ u F) as (Hin & _ & _).
  split; [exact Hm |]. split; [exact Hin |]. split; [exact F |].
  unfold message_view. rewrite F. cbn. auto.
Qed.

Lemma reachable_with_hi : reachable Sample.with_hi.
Proof.
  exact (reachable_step Sample.with_alice
           (PostChat 3000%Z (Some "Bearer tokA") Sample.hi_inserted
                     (ChatPostRequest.make "hi"))
           reachable_with_alice eq_refl).
Qed.

Lemma reachable_listing_names_users_witness :
  exists m u,
    In m (db_chatmessage Sample.with_hi) /\ In u (db_authuser Sample.with_hi) /\
    find_user Sample.with_hi (chatmessage.user_id m) = Some u /\
    "Alice" = authuser.name u /\
    "hi" = chatmessage.content m /\
    "0d0d0d0d0d0d0d0d0d0d0d0d" = ObjectId.str (chatmessage._id m).
Proof.
  exact (reachable_listing_names_users Sample.with_hi Sample.alice
           [ChatMessageResponse.make "0d0d0d0d0d0d0d0d0d0d0d0d" "Alice" "hi" 3001%Z]
           reachable_with_hi eq_refl
           (ChatMessageResponse.make "0d0d0d0d0d0d0d0d0d0d0d0d" "Alice" "hi" 3001%Z)
           (or_introl eq_refl)).
Defined.

(** X15. The token [login] returns is a working credential too: in a store
    the application built, when no stored session carries the drawn token, a
    successful login is the login of the stored user with the given email,
    and the header "Bearer <token>" makes [get_current_user] return that
    user at every time strictly before the clock reading of the login plus
    seven days, and raise 401 "Invalid or expired token" from then on. *)
Theorem login_then_authenticate
    (d d' : DB) (e : session_env) (payload : LoginRequest.t) (r : LoginResponse.t) :
  reachable d ->
  fresh_token d (token_urlsafe e) = true ->
  login (Some d) e payload = (Some d', Return r) ->
  exists u,
    find_user_by_email d (LoginRequest.email payload) = Some u /\
    LoginResponse.name r = authuser.name u /\
    LoginResponse.email r = LoginRequest.email payload /\
    forall T,
      get_current_user (Some d') T (Some ("Bearer " ++ LoginResponse.token r)) =
      if (T <? now e + timedelta_days 7)%Z then Return u
      else Raise (HTTPException 401 "Invalid or expired token").
Proof.
  intros R F L. rewrite login_eq in L.
  destruct (find_user_by_email d (LoginRequest.email payload)) as [u |] eqn:Fu;
    [| discriminate L].
  destruct (verify_password _ _); [| discriminate L].
  injection L as <- <-. exists u.
  assert (Hin : In u (db_authuser d) /\ authuser.email u = LoginRequest.email payload).
  { unfold find_user_by_email in Fu. apply find_some in Fu. destruct Fu as [Hin He].
    split; [exact Hin | apply String.eqb_eq; exact He]. }
  destruct Hin as [Hin He].
  split; [reflexivity |]. split; [reflexivity |]. split; [exact He |].
  intros T. cbn [LoginResponse.token].
  apply (bearer_new_session d _ _ e u T F).
  destruct (reachable_store_invariant d R) as (U & _).
  exact (U u Hin).
Qed.

Lemma login_then_authenticate_witness :
  exists u,
    find_user_by_email Sample.with_alice "a@x.com" = Some u /\
    "Alice" = authuser.name u /\
    "a@x.com" = "a@x.com" /\
    forall T,
      get_current_user
        (Some (store_after Sample.with_alice
                 (PostAuthLogin Sample.login_env (LoginRequest.make "a@x.com" "pw1"))))
        T (Some "Bearer tokB") =
      if (T <? 2000 + timedelta_days 7)%Z then Return u
      else Raise (HTTPException 401 "Invalid or expired token").
Proof.
  apply (login_then_authenticate Sample.with_alice
           (store_after Sample.with_alice
              (PostAuthLogin Sample.login_env (LoginRequest.make "a@x.com" "pw1")))
           Sample.login_env (LoginRequest.make "a@x.com" "pw1")
           (LoginResponse.make "tokB" "Alice" "a@x.com")).
  - exact reachable_with_alice.
  - reflexivity.
  - vm_compute. reflexivity.
Defined.

(** X16. While the feed holds at most 50 messages, [list_messages] leaves
    none out: it returns one view for each stored message. *)
Theorem list_messages_shows_all_up_to_fifty (d : DB) (viewer : authuser.doc) :
  (length (db_chatmessage d) <= 50)%nat ->
  exists shown,
    list_messages (Some d) viewer = Return (map (message_view d) shown) /\
    Permutation shown (db_chatmessage d) /\
    forall m, In m (db_chatmessage d) ->
              exists views, list_messages (Some d) viewer = Return views /\
                            In (message_view d m) views.
Proof.
  intros L.
  assert (A : recent_messages d = SortCreatedDesc.sort (db_chatmessage d)).
  { unfold recent_messages. apply firstn_all2.
    rewrite <- (Permutation_length (SortCreatedDesc.Permuted_sort (db_chatmessage d))).
    exact L. }
  assert (P : Permutation (rev (recent_messages d)) (db_chatmessage d)).
  { rewrite A. apply Permutation_trans with (SortCreatedDesc.sort (db_chatmessage d)).
    - apply Permutation_sym, Permutation_rev.
    - apply Permutation_sym, SortCreatedDesc.Permuted_sort. }
  assert (E : list_messages (Some d) viewer =
              Return (map (message_view d) (rev (recent_messages d)))).
  { unfold list_messages. rewrite map_rev. reflexivity. }
  exists (rev (recent_messages d)). split; [exact E |]. split; [exact P |].
  intros m Hm. eexists. split; [exact E |].
  apply in_map. apply (Permutation_in m (Permutation_sym P)). exact Hm.
Qed.

Lemma list_messages_shows_all_up_to_fifty_witness :
  exists shown,
    list_messages (Some Sample.with_hi) Sample.alice =
      Return (map (message_view Sample.with_hi) shown) /\
    Permutation shown (db_chatmessage Sample.with_hi).
Proof.
  destruct (list_messages_shows_all_up_to_fifty Sample.with_hi Sample.alice)
    as (shown & H1 & H2 & _).
  - simpl. lia.
  - exists shown. split; [exact H1 | exact H2].
Defined.
